(** * Parrot Minidrone driver: frame encoder, motion state, status decoder
      and piloting-command loop.

    A shallow embedding of [minidrone.go] (package [minidrone]) and the
    properties of its wire protocol.

    Conventions of the embedding:
    - Go's [int] and [uint16] values are integers in [Z]; a conversion that
      truncates ([byte(x)], [uint16] increment) is written with its modulus.
    - A [[]byte] is a [list Z] of values in [0, 256); an indexed store that
      Go would abort with "index out of range" yields [None].
    - A [float32] is carried as its IEEE-754 binary32 bit pattern, which is
      what [math.Float32bits] exposes; the driver never computes with it.
    - The transport ([WriteWithoutResponse]), the observer callback and the
      console are external: calls to them are recorded as events. *)

From Stdlib Require Import ZArith List Lia String Bool.
From Stdlib Require Import Floats.SpecFloat.
From stdpp Require Import base option list.

Open Scope Z_scope.

(** ** Go primitive conversions *)

(** [byte(x)] for an integer [x]: the low eight bits. *)
Definition byte (x : Z) : Z := x mod 256.

(** [x++] on a [uint16]. *)
Definition uint16_incr (x : Z) : Z := (x + 1) mod 65536.

(** A [float32], as the 32 bits of its IEEE-754 encoding. *)
Record float32 : Type := Float32frombits { Float32bits : Z }.

(** The number a binary32 bit pattern denotes (sign bit 31, exponent bits
    30..23 biased by 127, fraction bits 22..0). *)
Definition float32_value (f : float32) : spec_float :=
  let bits := Float32bits f in
  let s := Z.testbit bits 31 in
  let e := Z.land (Z.shiftr bits 23) 255 in
  let frac := Z.land bits 8388607 in
  if e =? 0 then
    match frac with
    | Zpos p => S754_finite s p (-149)
    | _ => S754_zero s
    end
  else if e =? 255 then
    (if frac =? 0 then S754_infinity s else S754_nan)
  else
    match frac + 8388608 with
    | Zpos p => S754_finite s p (e - 150)
    | _ => S754_nan
    end.

(** The literal [0] and the literal [1.0] as [float32]. *)
Definition float32_zero : float32 := Float32frombits 0.
Definition float32_one : float32 := Float32frombits 1065353216.

(** [b[i] = v] on a slice: aborts when [i] is out of range. *)
Definition store (b : list Z) (i : nat) (v : Z) : option (list Z) :=
  if decide (i < length b)%nat then Some (<[i:=v]> b) else None.

(** [b[i]] on a slice: aborts when [i] is out of range. *)
Definition index (b : list Z) (i : nat) : option Z := b !! i.

(** [binary.LittleEndian.PutUint32(b[off:], v)]: the sub-slice shares the
    array of [b], so the four bytes land in [b[off .. off+3]]. *)
Definition PutUint32 (b : list Z) (off : nat) (v : Z) : option (list Z) :=
  if decide (off + 3 < length b)%nat then
    Some (<[(off + 3)%nat := byte (Z.shiftr v 24)]>
          (<[(off + 2)%nat := byte (Z.shiftr v 16)]>
           (<[(off + 1)%nat := byte (Z.shiftr v 8)]>
            (<[off := byte v]> b))))
  else None.

(** [binary.LittleEndian.Uint32(b[off:])], the inverse reading. *)
Definition Uint32 (b : list Z) (off : nat) : option Z :=
  b0 ← b !! off;
  b1 ← b !! (off + 1)%nat;
  b2 ← b !! (off + 2)%nat;
  b3 ← b !! (off + 3)%nat;
  Some (Z.lor b0 (Z.lor (Z.shiftl b1 8) (Z.lor (Z.shiftl b2 16) (Z.shiftl b3 24)))).

(** ** Data model *)

(** [type Pcmd struct]: the desired-motion vector. *)
Record Pcmd : Type := mkPcmd {
  Flag : Z;
  Roll : Z;
  Pitch : Z;
  Yaw : Z;
  Gaz : Z;
  Psi : float32
}.

(** [type Minidrone struct], without the transport handles.  The field
    [pcmd] is the source's [Pcmd] (the name is taken by the type); the
    handler field records whether a callback is registered ([false] is
    [nil]); [pcmdMutex] and [shutdown] live in the session model below. *)
Record Minidrone : Type := mkMinidrone {
  buf : list Z;
  stepsfa0a : Z;
  stepsfa0b : Z;
  Flying : bool;
  pcmd : Pcmd;
  pcmddata : list Z;
  pilotingStateHandler : bool
}.

Definition PilotingStateFlatTrimChanged : Z := 0.
Definition PilotingStateFlyingStateChanged : Z := 1.

Definition FlyingStateLanded : Z := 0.
Definition FlyingStateTakeoff : Z := 1.
Definition FlyingStateHovering : Z := 2.
Definition FlyingStateFlying : Z := 3.
Definition FlyingStateLanding : Z := 4.
Definition FlyingStateEmergency : Z := 5.
Definition FlyingStateRolling : Z := 6.

Definition zero_Pcmd : Pcmd :=
  {| Flag := 0; Roll := 0; Pitch := 0; Yaw := 0; Gaz := 0; Psi := float32_zero |}.

(** [NewMinidrone]: zero counters, zero vector, a 19-byte frame buffer and a
    255-byte scratch buffer, no handler. *)
Definition NewMinidrone : Minidrone :=
  {| buf := replicate 255 0;
     stepsfa0a := 0;
     stepsfa0b := 0;
     Flying := false;
     pcmd := zero_Pcmd;
     pcmddata := replicate 19 0;
     pilotingStateHandler := false |}.

(** [PilotingStateChange(handler)] with a non-nil handler. *)
Definition PilotingStateChange (m : Minidrone) : Minidrone :=
  {| buf := buf m; stepsfa0a := stepsfa0a m; stepsfa0b := stepsfa0b m;
     Flying := Flying m; pcmd := pcmd m; pcmddata := pcmddata m;
     pilotingStateHandler := true |}.

Definition set_pcmd (m : Minidrone) (p : Pcmd) : Minidrone :=
  {| buf := buf m; stepsfa0a := stepsfa0a m; stepsfa0b := stepsfa0b m;
     Flying := Flying m; pcmd := p; pcmddata := pcmddata m;
     pilotingStateHandler := pilotingStateHandler m |}.

Definition set_stepsfa0b (m : Minidrone) (n : Z) : Minidrone :=
  {| buf := buf m; stepsfa0a := stepsfa0a m; stepsfa0b := n;
     Flying := Flying m; pcmd := pcmd m; pcmddata := pcmddata m;
     pilotingStateHandler := pilotingStateHandler m |}.

Definition set_Flying (m : Minidrone) (b : bool) : Minidrone :=
  {| buf := buf m; stepsfa0a := stepsfa0a m; stepsfa0b := stepsfa0b m;
     Flying := b; pcmd := pcmd m; pcmddata := pcmddata m;
     pilotingStateHandler := pilotingStateHandler m |}.

(** ** Frame encoder: the command channel (counter [stepsfa0b]) *)

(** The sequence byte as the source writes it: [byte(m.stepsfa0b) & 0xff]. *)
Definition seq_byte (n : Z) : Z := Z.land (byte n) 255.

(** The bytes of the date literal ["2014-10-28"]. *)
Definition date_bytes : list Z :=
  [50; 48; 49; 52; 45; 49; 48; 45; 50; 56].

(** The bytes of a string literal, as Go lays a string out in a [[]byte]. *)
Definition utf8 (s : string) : list Z :=
  (λ b, Z.of_N (Byte.to_N b)) <$> list_byte_of_string s.

(** Each encoder returns the updated driver and the frame it hands to
    [commandCharacteristic.WriteWithoutResponse]. *)
Definition GenerateAllStates (m : Minidrone) : Minidrone * list Z :=
  let m' := set_stepsfa0b m (uint16_incr (stepsfa0b m)) in
  (m', [4; seq_byte (stepsfa0b m'); 0; 4; 1; 0] ++ date_bytes ++ [0]).

Definition TakeOff (m : Minidrone) : Minidrone * list Z :=
  let m' := set_stepsfa0b m (uint16_incr (stepsfa0b m)) in
  (m', [2; seq_byte (stepsfa0b m'); 2; 0; 1; 0]).

Definition Land (m : Minidrone) : Minidrone * list Z :=
  let m' := set_stepsfa0b m (uint16_incr (stepsfa0b m)) in
  (m', [2; seq_byte (stepsfa0b m'); 2; 0; 3; 0]).

Definition FlatTrim (m : Minidrone) : Minidrone * list Z :=
  let m' := set_stepsfa0b m (uint16_incr (stepsfa0b m)) in
  (m', [2; seq_byte (stepsfa0b m'); 2; 0; 0; 0]).

Definition Emergency (m : Minidrone) : Minidrone * list Z :=
  let m' := set_stepsfa0b m (uint16_incr (stepsfa0b m)) in
  (m', [2; seq_byte (stepsfa0b m'); 2; 0; 4; 0]).

Definition generateAnimation (m : Minidrone) (anim : Z) : Minidrone * list Z :=
  let m' := set_stepsfa0b m (uint16_incr (stepsfa0b m)) in
  (m', [2; seq_byte (stepsfa0b m'); 2; 4; 0; 0; byte anim; 0; 0; 0]).

Definition FrontFlip (m : Minidrone) : Minidrone * list Z := generateAnimation m 0.
Definition BackFlip (m : Minidrone) : Minidrone * list Z := generateAnimation m 1.
Definition RightFlip (m : Minidrone) : Minidrone * list Z := generateAnimation m 2.
Definition LeftFlip (m : Minidrone) : Minidrone * list Z := generateAnimation m 3.

(** ** Movement commands: the motion vector *)

Definition validatePitch (val : Z) : Z :=
  if val >? 100 then 100
  else if val <? 0 then 0
  else val.

Definition with_Gaz (p : Pcmd) (v : Z) : Pcmd :=
  {| Flag := 1; Roll := Roll p; Pitch := Pitch p; Yaw := Yaw p; Gaz := v; Psi := Psi p |}.
Definition with_Pitch (p : Pcmd) (v : Z) : Pcmd :=
  {| Flag := 1; Roll := Roll p; Pitch := v; Yaw := Yaw p; Gaz := Gaz p; Psi := Psi p |}.
Definition with_Roll (p : Pcmd) (v : Z) : Pcmd :=
  {| Flag := 1; Roll := v; Pitch := Pitch p; Yaw := Yaw p; Gaz := Gaz p; Psi := Psi p |}.
Definition with_Yaw (p : Pcmd) (v : Z) : Pcmd :=
  {| Flag := 1; Roll := Roll p; Pitch := Pitch p; Yaw := v; Gaz := Gaz p; Psi := Psi p |}.

Definition Up (m : Minidrone) (val : Z) : Minidrone :=
  set_pcmd m (with_Gaz (pcmd m) (validatePitch val)).
Definition Down (m : Minidrone) (val : Z) : Minidrone :=
  set_pcmd m (with_Gaz (pcmd m) (validatePitch val * -1)).
Definition Forward (m : Minidrone) (val : Z) : Minidrone :=
  set_pcmd m (with_Pitch (pcmd m) (validatePitch val)).
Definition Backward (m : Minidrone) (val : Z) : Minidrone :=
  set_pcmd m (with_Pitch (pcmd m) (validatePitch val * -1)).
Definition Right (m : Minidrone) (val : Z) : Minidrone :=
  set_pcmd m (with_Roll (pcmd m) (validatePitch val)).
Definition Left (m : Minidrone) (val : Z) : Minidrone :=
  set_pcmd m (with_Roll (pcmd m) (validatePitch val * -1)).
Definition Clockwise (m : Minidrone) (val : Z) : Minidrone :=
  set_pcmd m (with_Yaw (pcmd m) (validatePitch val)).
Definition CounterClockwise (m : Minidrone) (val : Z) : Minidrone :=
  set_pcmd m (with_Yaw (pcmd m) (validatePitch val * -1)).

Definition Hover (m : Minidrone) : Minidrone := set_pcmd m zero_Pcmd.

(** All four axes of a motion vector are zero. *)
Definition axes_clear (p : Pcmd) : Prop :=
  Roll p = 0 ∧ Pitch p = 0 ∧ Yaw p = 0 ∧ Gaz p = 0.

(** ** Frame encoder: the piloting-command channel (counter [stepsfa0a]) *)

(** [generatePcmd]: rewrites the frame buffer [pcmddata] in place.  The
    heading goes through [PutUint32(m.buf[11:], ...)], as in the source. *)
Definition generatePcmd (m : Minidrone) : option Minidrone :=
  let a := uint16_incr (stepsfa0a m) in
  let p := pcmd m in
  d ← store (pcmddata m) 0 2;
  d ← store d 1 (byte a);
  d ← store d 2 2;
  d ← store d 3 0;
  d ← store d 4 2;
  d ← store d 5 0;
  d ← store d 6 (byte (Flag p));
  d ← store d 7 (byte (Roll p));
  d ← store d 8 (byte (Pitch p));
  d ← store d 9 (byte (Yaw p));
  d ← store d 10 (byte (Gaz p));
  b ← PutUint32 (buf m) 11 (Float32bits (Psi p));
  d ← store d 15 0;
  d ← store d 16 0;
  d ← store d 17 0;
  d ← store d 18 0;
  Some {| buf := b; stepsfa0a := a; stepsfa0b := stepsfa0b m;
          Flying := Flying m; pcmd := p; pcmddata := d;
          pilotingStateHandler := pilotingStateHandler m |}.

(** What a receiver reads back from bytes 11..14 of a piloting frame. *)
Definition frame_heading (frame : list Z) : option float32 :=
  Float32frombits <$> Uint32 frame 11.

(** The buffers as [NewMinidrone] allocates them. *)
Definition buffers_ok (m : Minidrone) : Prop :=
  length (pcmddata m) = 19%nat ∧ length (buf m) = 255%nat.

(** ** Events on the external collaborators *)

Inductive characteristic : Type := commandCharacteristic | pcmdCharacteristic.

Inductive event : Type :=
| Write (c : characteristic) (frame : list Z) (ok : bool)
| Handler (state substate : Z)
| Println (msg : string).

(** ** Status decoder *)

(** The [switch data[6]] of [processFlightStatus]; the [debug] prints are
    left out. *)
Definition flying_after (flying : bool) (substate : Z) : bool :=
  if substate =? FlyingStateLanded then
    (if flying then false else flying)
  else if substate =? FlyingStateTakeoff then flying
  else if substate =? FlyingStateHovering then
    (if negb flying then true else flying)
  else if substate =? FlyingStateFlying then
    (if negb flying then true else flying)
  else if substate =? FlyingStateLanding then flying
  else if substate =? FlyingStateEmergency then flying
  else if substate =? FlyingStateRolling then flying
  else flying.

Definition call_handler (m : Minidrone) (state substate : Z) : list event :=
  if pilotingStateHandler m then [Handler state substate] else [].

(** [processFlightStatus data]: [None] is a run-time abort on an index out
    of range; otherwise the new driver state and the observer calls made. *)
Definition processFlightStatus (m : Minidrone) (data : list Z)
  : option (Minidrone * list event) :=
  if decide (length data < 5)%nat then Some (m, [])
  else
    state ← index data 4;
    if state =? PilotingStateFlatTrimChanged then
      Some (m, call_handler m state 0)
    else if state =? PilotingStateFlyingStateChanged then
      substate ← index data 6;
      let m' := set_Flying m (flying_after (Flying m) substate) in
      Some (m', call_handler m' state substate)
    else Some (m, []).

(** A notification of category [FlyingStateChanged] carrying [substate]. *)
Definition FlyingStateChanged (data : list Z) (substate : Z) : Prop :=
  data !! 4%nat = Some PilotingStateFlyingStateChanged ∧
  data !! 6%nat = Some substate.

(** ** The command surface as data *)

(** Encoders of the command channel. *)
Inductive command : Type :=
| CmdGenerateAllStates
| CmdTakeOff
| CmdLand
| CmdFlatTrim
| CmdEmergency
| CmdAnimation (anim : Z).

Definition encode (c : command) (m : Minidrone) : Minidrone * list Z :=
  match c with
  | CmdGenerateAllStates => GenerateAllStates m
  | CmdTakeOff => TakeOff m
  | CmdLand => Land m
  | CmdFlatTrim => FlatTrim m
  | CmdEmergency => Emergency m
  | CmdAnimation anim => generateAnimation m anim
  end.

(** Mutators of the motion vector. *)
Inductive motion : Type :=
| MUp (val : Z) | MDown (val : Z)
| MForward (val : Z) | MBackward (val : Z)
| MRight (val : Z) | MLeft (val : Z)
| MClockwise (val : Z) | MCounterClockwise (val : Z)
| MHover.

Definition move (mv : motion) (m : Minidrone) : Minidrone :=
  match mv with
  | MUp v => Up m v
  | MDown v => Down m v
  | MForward v => Forward m v
  | MBackward v => Backward m v
  | MRight v => Right m v
  | MLeft v => Left m v
  | MClockwise v => Clockwise m v
  | MCounterClockwise v => CounterClockwise m v
  | MHover => Hover m
  end.

(** The public operations of the movement surface. *)
Inductive operation : Type :=
| Discrete (c : command)
| Motion (mv : motion).

Definition perform (op : operation) (m : Minidrone) : Minidrone :=
  match op with
  | Discrete c => (encode c m).1
  | Motion mv => move mv m
  end.

(** [cs] encoded one after the other: final state and the frames in order. *)
Fixpoint encode_all (cs : list command) (m : Minidrone)
  : Minidrone * list (list Z) :=
  match cs with
  | [] => (m, [])
  | c :: rest =>
      let r := encode c m in
      let r' := encode_all rest r.1 in
      (r'.1, r.2 :: r'.2)
  end.

(** [n] ticks of [generatePcmd]; each frame is the content of [pcmddata]
    at the time it is handed to the transport. *)
Fixpoint pcmd_ticks (n : nat) (m : Minidrone)
  : option (Minidrone * list (list Z)) :=
  match n with
  | O => Some (m, [])
  | S k =>
      m1 ← generatePcmd m;
      r ← pcmd_ticks k m1;
      Some (r.1, pcmddata m1 :: r.2)
  end.

(** The sequence byte of a frame (index 1). *)
Definition frame_seq (frame : list Z) : option Z := frame !! 1%nat.

(** The sequence bytes expected after counter value [seq0], for [n] frames. *)
Definition expected_seqs (seq0 : Z) (n : nat) : list (option Z) :=
  (λ k : nat, Some ((seq0 + Z.of_nat k) mod 256)) <$> seq 1 n.

(** ** The piloting-command loop and [Halt]

    Two goroutines share the driver: the loop spawned by [StartPcmd] and the
    caller of the public operations.  They meet on [m.shutdown], a channel
    made without capacity: a send completes only by handing its value to a
    receive, and the loop's [select] with a [default] branch receives only
    when a sender is already parked.  [generatePcmd] and the mutators of the
    motion vector run under [pcmdMutex], and the two counters are each
    touched by one goroutine, so whole calls are the atomic steps. *)

(** Where the loop goroutine stands. *)
Inductive loop_pc : Type :=
| LoopSettle      (* time.Sleep(500ms) before the first tick *)
| LoopSelect      (* top of a tick: select on the shutdown channel *)
| LoopTick        (* generatePcmd, WriteWithoutResponse, error report *)
| LoopSleep       (* time.Sleep(50ms) *)
| LoopReturned.   (* return: the goroutine is gone *)

(** What the caller goroutine still has to run: operations of the command
    surface and [Halt].  [Start] and [StartPcmd] are not among them: a
    session has the one loop that its [Start] spawned. *)
Inductive call : Type :=
| CallOp (op : operation)
| CallHalt.

(** Where the caller stands: between calls, or inside [Halt] after
    [Land], at [m.shutdown <- true] or at the settle sleep. *)
Inductive caller_pc : Type :=
| CallerReady
| HaltSend
| HaltSleep.

Record session : Type := mkSession {
  drone : Minidrone;
  loop : loop_pc;
  caller : caller_pc;
  calls : list call;
  trace : list event
}.

(** The fate of the loop's write: [None] when [WriteWithoutResponse]
    returns no error, [Some text] with the text of the error it returns. *)
Definition delivered (write : option string) : bool :=
  match write with None => true | Some _ => false end.

(** The line that [fmt.Println("pcmd write error:", err)] prints. *)
Definition pcmd_write_error (err : string) : string :=
  String.append "pcmd write error: " err.

(** What the loop reports after its write. *)
Definition report (write : option string) : list event :=
  match write with
  | None => []
  | Some err => [Println (pcmd_write_error err)]
  end.

(** The scheduler picks a goroutine, and the transport decides the fate of
    the write that step may perform.  The loop prints the error of a failed
    write, so its choice carries the text; the caller's operations hand
    their error back to the caller. *)
Inductive choice : Type :=
| RunLoop (write : option string)
| RunCaller (write_ok : bool).

(** A goroutine asked to step either cannot (parked on the channel, or
    finished), aborts the program, or moves the session on. *)
Inductive outcome : Type :=
| Stuck
| Abort
| Next (s : session).

Definition step_loop (write : option string) (s : session) : outcome :=
  match loop s with
  | LoopSettle =>
      Next {| drone := drone s; loop := LoopSelect; caller := caller s;
              calls := calls s; trace := trace s |}
  | LoopSelect =>
      match caller s with
      | HaltSend =>
          (* case <-m.shutdown: return *)
          Next {| drone := drone s; loop := LoopReturned; caller := HaltSleep;
                  calls := calls s; trace := trace s |}
      | _ =>
          (* default: *)
          Next {| drone := drone s; loop := LoopTick; caller := caller s;
                  calls := calls s; trace := trace s |}
      end
  | LoopTick =>
      match generatePcmd (drone s) with
      | None => Abort
      | Some m' =>
          Next {| drone := m'; loop := LoopSleep; caller := caller s;
                  calls := calls s;
                  trace := trace s ++
                    Write pcmdCharacteristic (pcmddata m') (delivered write) ::
                    report write |}
      end
  | LoopSleep =>
      Next {| drone := drone s; loop := LoopSelect; caller := caller s;
              calls := calls s; trace := trace s |}
  | LoopReturned => Stuck
  end.

Definition step_caller (write_ok : bool) (s : session) : outcome :=
  match caller s with
  | HaltSend => Stuck
  | HaltSleep =>
      Next {| drone := drone s; loop := loop s; caller := CallerReady;
              calls := calls s; trace := trace s |}
  | CallerReady =>
      match calls s with
      | [] => Stuck
      | CallOp (Discrete c) :: rest =>
          let r := encode c (drone s) in
          Next {| drone := r.1; loop := loop s; caller := CallerReady;
                  calls := rest;
                  trace := trace s ++ [Write commandCharacteristic r.2 write_ok] |}
      | CallOp (Motion mv) :: rest =>
          Next {| drone := move mv (drone s); loop := loop s;
                  caller := CallerReady; calls := rest; trace := trace s |}
      | CallHalt :: rest =>
          (* m.Land(), then on to the send *)
          let r := Land (drone s) in
          Next {| drone := r.1; loop := loop s; caller := HaltSend;
                  calls := rest;
                  trace := trace s ++ [Write commandCharacteristic r.2 write_ok] |}
      end
  end.

Definition step (c : choice) (s : session) : outcome :=
  match c with
  | RunLoop write => step_loop write s
  | RunCaller ok => step_caller ok s
  end.

(** A schedule run from [s]; it stops at the first step that cannot be
    taken. *)
Fixpoint run (cs : list choice) (s : session) : outcome :=
  match cs with
  | [] => Next s
  | c :: rest =>
      match step c s with
      | Next s' => run rest s'
      | o => o
      end
  end.

Inductive reachable (s0 : session) : session → Prop :=
| reachable_here : reachable s0 s0
| reachable_step s c s' :
    reachable s0 s → step c s = Next s' → reachable s0 s'.

(** The session as [Start] leaves it: the loop goroutine spawned, the
    caller about to run [cs]. *)
Definition started (m : Minidrone) (cs : list call) : session :=
  {| drone := m; loop := LoopSettle; caller := CallerReady;
     calls := cs; trace := [] |}.

(** The caller has returned from everything it had to run. *)
Definition finished (s : session) : Prop :=
  caller s = CallerReady ∧ calls s = [].

(** No goroutine can move although the caller has not returned. *)
Definition deadlocked (s : session) : Prop :=
  ¬ finished s ∧ ∀ c, step c s = Stuck.

(** Running [cs] after [Start] never aborts and never deadlocks. *)
Definition tolerated (cs : list call) : Prop :=
  ∀ m s, buffers_ok m → reachable (started m cs) s →
    (∀ c, step c s ≠ Abort) ∧ ¬ deadlocked s.

Fixpoint halts (cs : list call) : nat :=
  match cs with
  | [] => 0%nat
  | CallHalt :: rest => S (halts rest)
  | CallOp _ :: rest => halts rest
  end.

(** Shutdown signals the caller has yet to hand over: the [Halt] calls
    not begun, and the one parked on the channel. *)
Definition signals_left (s : session) : nat :=
  (halts (calls s) + match caller s with HaltSend => 1 | _ => 0 end)%nat.

(** Receivers of the channel that are gone for good. *)
Definition loop_gone (s : session) : nat :=
  match loop s with LoopReturned => 1%nat | _ => 0%nat end.

(** At most one signal per loop: what keeps a session free of deadlock. *)
Definition one_signal (s : session) : Prop :=
  buffers_ok (drone s) ∧ (signals_left s + loop_gone s ≤ 1)%nat.

(** The loop scheduled for one whole tick per write outcome: its
    [select], the tick proper, the sleep. *)
Fixpoint ticks (writes : list (option string)) : list choice :=
  match writes with
  | [] => []
  | w :: rest => RunLoop w :: RunLoop w :: RunLoop w :: ticks rest
  end.

(** What a run of ticks adds to the transcript: each frame with the fate of
    its write, followed by the report of a failure. *)
Fixpoint tick_events (frames : list (list Z)) (writes : list (option string))
  : list event :=
  match frames, writes with
  | f :: frames', w :: writes' =>
      Write pcmdCharacteristic f (delivered w) :: report w
        ++ tick_events frames' writes'
  | _, _ => []
  end.

(** ** Sample sessions *)

(** The state reached by calling [Halt] twice on a started session. *)
Definition after_second_Halt : session :=
  {| drone := (Land (Land NewMinidrone).1).1;
     loop := LoopReturned;
     caller := HaltSend;
     calls := [];
     trace := [Write commandCharacteristic [2; 1; 2; 0; 3; 0] true;
               Write commandCharacteristic [2; 2; 2; 0; 3; 0] true] |}.

(** A session in the middle of a tick, the caller idle. *)
Definition mid_tick : session :=
  {| drone := NewMinidrone; loop := LoopTick; caller := CallerReady;
     calls := []; trace := [] |}.

(** A session at the top of a tick, the caller idle. *)
Definition at_select : session :=
  {| drone := NewMinidrone; loop := LoopSelect; caller := CallerReady;
     calls := []; trace := [] |}.

(** ** State names *)

(** The event-name constants of the package. *)
Module Event.
Definition Takeoff : string := "takeoff".
Definition Hovering : string := "hovering".
Definition Flying : string := "flying".
Definition Landing : string := "landing".
Definition Landed : string := "landed".
Definition Emergency : string := "emergency".
Definition Rolling : string := "rolling".
End Event.

(** [FlyingState]: the name of a flying state, ["unknown"] outside the
    seven constants. *)
Definition FlyingState (state : Z) : string :=
  if state =? FlyingStateLanded then Event.Landed
  else if state =? FlyingStateTakeoff then Event.Takeoff
  else if state =? FlyingStateHovering then Event.Hovering
  else if state =? FlyingStateFlying then Event.Flying
  else if state =? FlyingStateLanding then Event.Landing
  else if state =? FlyingStateEmergency then Event.Emergency
  else if state =? FlyingStateRolling then Event.Rolling
  else "unknown".

(** ** Notifications in sequence *)

(** The callback that [Init] hands to [EnableNotifications], run on each
    notification in turn: the states thread through, the observer calls
    accumulate, an abort ends everything. *)
Fixpoint deliver (m : Minidrone) (frames : list (list Z))
  : option (Minidrone * list event) :=
  match frames with
  | [] => Some (m, [])
  | data :: rest =>
      r ← processFlightStatus m data;
      r' ← deliver r.1 rest;
      Some (r'.1, r.2 ++ r'.2)
  end.

(** What a sub-state says about being in the air, if anything. *)
Definition decides (substate : Z) : option bool :=
  if substate =? FlyingStateLanded then Some false
  else if (substate =? FlyingStateHovering) || (substate =? FlyingStateFlying)
  then Some true
  else None.

(** ** Reading a frame back *)

(** A frame byte read as a signed 8-bit integer (Go's [int8(b)]). *)
Definition int8 (b : Z) : Z := if b <? 128 then b else b - 256.

(** The axes as the directional commands can leave them. *)
Definition axes_in_range (p : Pcmd) : Prop :=
  (Flag p = 0 ∨ Flag p = 1)
  ∧ -100 ≤ Roll p ≤ 100 ∧ -100 ≤ Pitch p ≤ 100
  ∧ -100 ≤ Yaw p ≤ 100 ∧ -100 ≤ Gaz p ≤ 100.

(** The axis a motion command writes: 0 roll, 1 pitch, 2 yaw, 3 gaz;
    [Hover] writes them all. *)
Definition axis_of (mv : motion) : option nat :=
  match mv with
  | MRight _ | MLeft _ => Some 0%nat
  | MForward _ | MBackward _ => Some 1%nat
  | MClockwise _ | MCounterClockwise _ => Some 2%nat
  | MUp _ | MDown _ => Some 3%nat
  | MHover => None
  end.

(** A piloting frame as a receiver expects it: the fixed bytes in place, a
    flag of 0 or 1, and four axes that read as signed bytes in [-100,100];
    nothing is asked of the heading bytes. *)
Definition pcmd_frame_ok (f : list Z) : Prop :=
  ∃ seq flag roll pitch yaw gaz h0 h1 h2 h3,
    f = [2; seq; 2; 0; 2; 0; flag; roll; pitch; yaw; gaz;
         h0; h1; h2; h3; 0; 0; 0; 0]
    ∧ 0 ≤ seq < 256
    ∧ (flag = 0 ∨ flag = 1)
    ∧ -100 ≤ int8 roll ≤ 100 ∧ -100 ≤ int8 pitch ≤ 100
    ∧ -100 ≤ int8 yaw ≤ 100 ∧ -100 ≤ int8 gaz ≤ 100.

(** ** Transcripts *)

Definition same_characteristic (a b : characteristic) : bool :=
  match a, b with
  | commandCharacteristic, commandCharacteristic => true
  | pcmdCharacteristic, pcmdCharacteristic => true
  | _, _ => false
  end.

(** The frames handed to one characteristic, in order, delivered or not. *)
Definition frames_on (c : characteristic) (tr : list event) : list (list Z) :=
  omap (λ e, match e with
             | Write c' frame _ =>
                 if same_characteristic c' c then Some frame else None
             | _ => None
             end) tr.

(** The encoders a caller program runs on the command channel, in order:
    a [Halt] is a [Land]. *)
Fixpoint commands_of (cs : list call) : list command :=
  match cs with
  | [] => []
  | CallOp (Discrete c) :: rest => c :: commands_of rest
  | CallOp (Motion _) :: rest => commands_of rest
  | CallHalt :: rest => CmdLand :: commands_of rest
  end.

(** Both transcripts of a session are in sequence from the counter values
    [a0] (piloting channel) and [b0] (command channel), and the counters of
    the driver agree with the number of frames sent. *)
Definition in_sequence (a0 b0 : Z) (s : session) : Prop :=
  let cmd := frames_on commandCharacteristic (trace s) in
  let pil := frames_on pcmdCharacteristic (trace s) in
  frame_seq <$> cmd = expected_seqs b0 (length cmd)
  ∧ frame_seq <$> pil = expected_seqs a0 (length pil)
  ∧ stepsfa0b (drone s) mod 256 = (b0 + Z.of_nat (length cmd)) mod 256
  ∧ stepsfa0a (drone s) mod 256 = (a0 + Z.of_nat (length pil)) mod 256.

(** The command frames a session has still to send, as the caller's
    remaining calls would encode them from the present counter. *)
Definition pending_frames (s : session) : list (list Z) :=
  (encode_all (commands_of (calls s)) (drone s)).2.

(** ** Session start *)

(** What the transport answers during [Start].  A discovery answers with an
    error text or with the number of items found; a write or a subscription
    answers with an error text or with success. *)
Record handshake : Type := mkHandshake {
  services : string + nat;
  command_characteristics : string + nat;
  notify_characteristics : string + nat;
  settings_write : option string;
  enable_notifications : option string;
  trim_write : bool
}.

(** [Init]: the settings frame, then the subscription.  Returns the driver,
    the events, and the error if any. *)
Definition Init (h : handshake) (m : Minidrone)
  : Minidrone * list event * option string :=
  let r := GenerateAllStates m in
  match settings_write h with
  | Some err =>
      (r.1, [Write commandCharacteristic r.2 false; Println err], Some err)
  | None =>
      (r.1, [Write commandCharacteristic r.2 true], enable_notifications h)
  end.

Inductive start_outcome : Type :=
| StartAbort
| StartError (err : string) (m : Minidrone) (tr : list event)
| StartOk (s : session).

(** [Start], up to and including [StartPcmd]: the second [FlatTrim] runs on
    the caller's goroutine while the loop already exists, so it heads the
    calls still to run, followed by what the caller does after [Start]. *)
Definition Start (h : handshake) (m : Minidrone) (rest : list call)
  : start_outcome :=
  match services h with
  | inl err => StartError err m []
  | inr O => StartError "could not find drone services" m []
  | inr (S O) => StartAbort
  | inr _ =>
      match command_characteristics h with
      | inl err => StartError err m []
      | inr O => StartError "could not find drone command characteristics" m []
      | inr (S O) => StartAbort
      | inr _ =>
          match notify_characteristics h with
          | inl err => StartError err m []
          | inr O => StartError "could not find drone notify characteristics" m []
          | inr _ =>
              let i := Init h m in
              match i.2 with
              | Some err => StartError err i.1.1 i.1.2
              | None =>
                  let r := FlatTrim i.1.1 in
                  StartOk {| drone := r.1; loop := LoopSettle;
                             caller := CallerReady;
                             calls := CallOp (Discrete CmdFlatTrim) :: rest;
                             trace := i.1.2 ++
                               [Write commandCharacteristic r.2 (trim_write h)] |}
              end
          end
      end
  end.

(** A transport that finds what [Start] goes on to use: two services, two
    command characteristics, one notification characteristic (or more). *)
Definition discovery_complete (h : handshake) : Prop :=
  (∃ n, services h = inr (S (S n)))
  ∧ (∃ n, command_characteristics h = inr (S (S n)))
  ∧ (∃ n, notify_characteristics h = inr (S n)).

(** A transport that moreover accepts the settings frame and the
    subscription. *)
Definition handshake_ok (h : handshake) : Prop :=
  discovery_complete h
  ∧ settings_write h = None
  ∧ enable_notifications h = None.

(** ** Notifications beside the goroutines *)

(** The transport delivering a notification to the callback that [Init]
    registered with [EnableNotifications]: [processFlightStatus] runs on the
    driver, its observer calls join the trace, and its abort is the
    program's.  The callback writes [Flying] only, which neither goroutine
    touches, so a delivery is one more atomic step. *)
Definition notified (data : list Z) (s : session) : outcome :=
  match processFlightStatus (drone s) data with
  | None => Abort
  | Some r =>
      Next {| drone := r.1; loop := loop s; caller := caller s;
              calls := calls s; trace := trace s ++ r.2 |}
  end.

(** What can happen to a session whose notifications are enabled: a
    goroutine is scheduled, or a notification arrives. *)
Inductive happening : Type :=
| Scheduled (c : choice)
| Notification (data : list Z).

Definition happen (h : happening) (s : session) : outcome :=
  match h with
  | Scheduled c => step c s
  | Notification data => notified data s
  end.

Fixpoint happen_all (hs : list happening) (s : session) : outcome :=
  match hs with
  | [] => Next s
  | h :: rest =>
      match happen h s with
      | Next s' => happen_all rest s'
      | o => o
      end
  end.

Inductive reachable_notified (s0 : session) : session → Prop :=
| reachable_notified_here : reachable_notified s0 s0
| reachable_notified_step s h s' :
    reachable_notified s0 s → happen h s = Next s' → reachable_notified s0 s'.

(** A notification that makes the decoder abort: 5 or 6 bytes, category
    [FlyingStateChanged]. *)
Definition short_flying_frame (data : list Z) : Prop :=
  (5 ≤ length data < 7)%nat
  ∧ data !! 4%nat = Some PilotingStateFlyingStateChanged.

(** ** Sample runs *)

(** The takeoff example after [Start]: take off, land, halt. *)
Definition takeoff_program : list call :=
  [CallOp (Discrete CmdTakeOff); CallOp (Discrete CmdLand); CallHalt].

(** A transport that finds everything and refuses nothing but the first
    flat trim. *)
Definition good_handshake : handshake :=
  mkHandshake (inr 2%nat) (inr 2%nat) (inr 1%nat) None None false.

(** One way for the takeoff example to go to its end, notifications
    arriving in between. *)
Definition takeoff_happenings : list happening :=
  [Scheduled (RunCaller true);
   Notification [2; 1; 2; 3; 0];
   Scheduled (RunCaller true);
   Scheduled (RunLoop None); Scheduled (RunLoop None);
   Scheduled (RunLoop (Some "timeout"%string));
   Notification [2; 2; 2; 3; 1; 0; 1];
   Notification [2; 3; 2; 3; 1; 0; 2];
   Scheduled (RunCaller false);
   Notification [2; 4; 2; 3; 1; 0; 4];
   Notification [2; 5; 2; 3; 1; 0; 0];
   Scheduled (RunCaller true);
   Scheduled (RunLoop None); Scheduled (RunLoop None);
   Scheduled (RunCaller true)].

Definition started_takeoff : session :=
  Eval vm_compute in
    match Start good_handshake NewMinidrone takeoff_program with
    | StartOk s => s
    | _ => started NewMinidrone []
    end.

Definition finished_takeoff : session :=
  Eval vm_compute in
    match happen_all takeoff_happenings started_takeoff with
    | Next s => s
    | _ => started NewMinidrone []
    end.

(** A session whose loop has just returned while the caller is inside
    [Halt] with two more calls to make, and the same session after those
    calls and two notifications. *)
Definition halted_session : session :=
  Eval vm_compute in
    match run [RunLoop None; RunLoop None; RunLoop (Some "timeout"%string);
               RunCaller true; RunLoop None; RunLoop None]
              (started NewMinidrone
                 [CallHalt; CallOp (Motion (MUp 50));
                  CallOp (Discrete CmdTakeOff)]) with
    | Next s => s
    | _ => started NewMinidrone []
    end.

Definition after_halt_happenings : list happening :=
  [Scheduled (RunCaller true); Notification [2; 1; 2; 3; 1; 0; 2];
   Scheduled (RunCaller true); Scheduled (RunCaller false);
   Notification [2; 2; 2; 3; 0]].

Definition halted_session_later : session :=
  Eval vm_compute in
    match happen_all after_halt_happenings halted_session with
    | Next s => s
    | _ => started NewMinidrone []
    end.

(** A short program without [Start], one schedule for it, and where that
    schedule leads. *)
Definition short_program : list call :=
  [CallOp (Motion (MDown 700)); CallOp (Discrete CmdTakeOff); CallHalt].

Definition short_schedule : list choice :=
  [RunCaller true; RunLoop None; RunLoop None; RunLoop (Some "timeout"%string); RunCaller false;
   RunCaller true; RunLoop None; RunLoop None; RunCaller true].

Definition finished_short : session :=
  Eval vm_compute in
    match run short_schedule (started NewMinidrone short_program) with
    | Next s => s
    | _ => started NewMinidrone []
    end.

(** * Properties *)

(** ** Arithmetic of the sequence byte *)

Lemma byte_uint16_incr (n : Z) : byte (uint16_incr n) = (n + 1) mod 256.
Proof.
  unfold byte, uint16_incr.
  apply Z.mod_mod_divide. exists 256. reflexivity.
Qed.

Lemma byte_range (x : Z) : 0 ≤ byte x < 256.
Proof. unfold byte. apply Z.mod_pos_bound. lia. Qed.

Lemma seq_byte_byte (n : Z) : seq_byte n = byte n.
Proof.
  unfold seq_byte.
  change 255 with (Z.ones 8).
  rewrite Z.land_ones by lia.
  change (2 ^ 8) with 256.
  apply Z.mod_small, byte_range.
Qed.

Lemma seq_byte_uint16_incr (n : Z) : seq_byte (uint16_incr n) = (n + 1) mod 256.
Proof. rewrite seq_byte_byte. apply byte_uint16_incr. Qed.

Lemma byte_incr_shift (n k : Z) :
  (uint16_incr n + k) mod 256 = (n + (1 + k)) mod 256.
Proof.
  unfold uint16_incr.
  rewrite Z.add_mod by lia.
  rewrite (Z.mod_mod_divide (n + 1) 65536 256) by (exists 256; reflexivity).
  rewrite <- Z.add_mod by lia.
  f_equal. lia.
Qed.

Lemma expected_seqs_S (seq0 : Z) (n : nat) :
  expected_seqs seq0 (S n) =
  Some ((seq0 + 1) mod 256) :: expected_seqs (uint16_incr seq0) n.
Proof.
  unfold expected_seqs. cbn [seq fmap list_fmap]. f_equal.
  rewrite <- (fmap_S_seq 1 n), <- list_fmap_compose.
  apply list_fmap_ext. intros _ k _. cbn. f_equal.
  rewrite byte_incr_shift. f_equal. lia.
Qed.

(** ** Clamping *)

Lemma validatePitch_clamp (val : Z) : validatePitch val = Z.max 0 (Z.min val 100).
Proof.
  unfold validatePitch.
  destruct (Z.gtb_spec val 100); [lia |].
  destruct (Z.ltb_spec val 0); lia.
Qed.

Lemma validatePitch_range (val : Z) : 0 ≤ validatePitch val ≤ 100.
Proof. rewrite validatePitch_clamp. lia. Qed.

(** C3: every directional command sets [Flag] to 1 and its own axis to the
    magnitude clamped into [0,100], with the sign of its direction; values
    above 100 become 100, values below 0 become 0; the other axes and the
    heading keep their prior value. *)
Theorem directional_commands_clamp (m : Minidrone) (val : Z) :
  let p := pcmd m in
  let c := Z.max 0 (Z.min val 100) in
  pcmd (Up m val) =
    {| Flag := 1; Roll := Roll p; Pitch := Pitch p; Yaw := Yaw p; Gaz := c; Psi := Psi p |}
  ∧ pcmd (Down m val) =
    {| Flag := 1; Roll := Roll p; Pitch := Pitch p; Yaw := Yaw p; Gaz := - c; Psi := Psi p |}
  ∧ pcmd (Forward m val) =
    {| Flag := 1; Roll := Roll p; Pitch := c; Yaw := Yaw p; Gaz := Gaz p; Psi := Psi p |}
  ∧ pcmd (Backward m val) =
    {| Flag := 1; Roll := Roll p; Pitch := - c; Yaw := Yaw p; Gaz := Gaz p; Psi := Psi p |}
  ∧ pcmd (Right m val) =
    {| Flag := 1; Roll := c; Pitch := Pitch p; Yaw := Yaw p; Gaz := Gaz p; Psi := Psi p |}
  ∧ pcmd (Left m val) =
    {| Flag := 1; Roll := - c; Pitch := Pitch p; Yaw := Yaw p; Gaz := Gaz p; Psi := Psi p |}
  ∧ pcmd (Clockwise m val) =
    {| Flag := 1; Roll := Roll p; Pitch := Pitch p; Yaw := c; Gaz := Gaz p; Psi := Psi p |}
  ∧ pcmd (CounterClockwise m val) =
    {| Flag := 1; Roll := Roll p; Pitch := Pitch p; Yaw := - c; Gaz := Gaz p; Psi := Psi p |}
  ∧ 0 ≤ c ≤ 100
  ∧ (100 < val → c = 100)
  ∧ (val < 0 → c = 0).
Proof.
  cbv zeta.
  unfold Up, Down, Forward, Backward, Right, Left, Clockwise, CounterClockwise.
  unfold with_Gaz, with_Pitch, with_Roll, with_Yaw.
  cbn [pcmd set_pcmd].
  rewrite validatePitch_clamp.
  replace (Z.max 0 (Z.min val 100) * -1) with (- Z.max 0 (Z.min val 100)) by lia.
  repeat split; lia.
Qed.

Lemma directional_commands_clamp_witness :
  pcmd (Up NewMinidrone 250) =
    {| Flag := 1; Roll := 0; Pitch := 0; Yaw := 0; Gaz := 100; Psi := float32_zero |}
  ∧ pcmd (Left NewMinidrone (-7)) =
    {| Flag := 1; Roll := 0; Pitch := 0; Yaw := 0; Gaz := 0; Psi := float32_zero |}.
Proof.
  pose proof (directional_commands_clamp NewMinidrone 250) as H.
  pose proof (directional_commands_clamp NewMinidrone (-7)) as H'.
  cbv zeta in H, H'.
  destruct H as (HUp & _).
  destruct H' as (_ & _ & _ & _ & _ & HLeft & _).
  split; [exact HUp | exact HLeft].
Defined.

(** ** Hover *)

Lemma directional_sets_flag (mv : motion) (m : Minidrone) :
  mv ≠ MHover → Flag (pcmd (move mv m)) = 1.
Proof. destruct mv; intros Hne; try reflexivity. congruence. Qed.

Lemma encode_keeps_pcmd (c : command) (m : Minidrone) :
  pcmd (encode c m).1 = pcmd m.
Proof. destruct c; reflexivity. Qed.

Lemma only_Hover_clears_axes (op : operation) :
  (∀ m, axes_clear (pcmd (perform op m))) → op = Motion MHover.
Proof.
  intros Hall.
  specialize (Hall (set_pcmd NewMinidrone
    {| Flag := 1; Roll := 1; Pitch := 1; Yaw := 1; Gaz := 1; Psi := float32_zero |})).
  destruct Hall as (Hr & Hp & Hy & Hg).
  destruct op as [c | mv]; cbn [perform] in Hr, Hp.
  - rewrite encode_keeps_pcmd in Hr. discriminate Hr.
  - destruct mv; try reflexivity; solve [discriminate Hr | discriminate Hp].
Qed.

(** C6: [Hover] resets the whole motion vector ([Flag], [Roll], [Pitch],
    [Yaw], [Gaz] and [Psi] all zero) from every prior state, and it is the
    only operation of the movement surface that does so: no other one
    clears the four axes from every prior state, and a directional command
    never leaves the zero vector. *)
Theorem Hover_resets_and_is_unique :
  (∀ m, pcmd (Hover m) =
          {| Flag := 0; Roll := 0; Pitch := 0; Yaw := 0; Gaz := 0;
             Psi := Float32frombits 0 |})
  ∧ float32_value (Float32frombits 0) = S754_zero false
  ∧ (∀ op, (∀ m, pcmd (perform op m) = zero_Pcmd) ↔ op = Motion MHover)
  ∧ (∀ op, (∀ m, axes_clear (pcmd (perform op m))) ↔ op = Motion MHover)
  ∧ (∀ mv m, mv ≠ MHover → pcmd (move mv m) ≠ zero_Pcmd).
Proof.
  assert (Hdir : ∀ mv m, mv ≠ MHover → pcmd (move mv m) ≠ zero_Pcmd).
  { intros mv m Hne Hz.
    pose proof (directional_sets_flag mv m Hne) as Hf.
    rewrite Hz in Hf. discriminate Hf. }
  split; [reflexivity |].
  split; [reflexivity |].
  split; [| split; [| exact Hdir]].
  - intros op. split.
    + intros Hall. apply only_Hover_clears_axes.
      intros m. rewrite Hall. repeat split.
    + intros -> m. reflexivity.
  - intros op. split; [apply only_Hover_clears_axes |].
    intros -> m. repeat split.
Qed.

Lemma Hover_resets_and_is_unique_witness :
  pcmd (move (MUp 0) NewMinidrone) ≠ zero_Pcmd
  ∧ pcmd (Hover (Up NewMinidrone 40)) = zero_Pcmd.
Proof.
  destruct Hover_resets_and_is_unique as (Hzero & _ & _ & _ & Hdir).
  split.
  - apply Hdir. discriminate.
  - apply Hzero.
Defined.

(** ** Discrete frames *)

(** C7: the discrete encoders emit the fixed layouts byte for byte:
    TakeOff, Land, FlatTrim and Emergency emit [02 seq 02 00 id 00] with id
    1, 3, 0 and 4; the settings frame is [04 seq 00 04 01 00], the date
    string, [00]; each flip emits [02 seq 02 04 00 00 anim 00 00 00] with
    anim 0 (front), 1 (back), 2 (right), 3 (left). *)
Theorem discrete_frames_layout (m : Minidrone) :
  let seq := (stepsfa0b m + 1) mod 256 in
  (TakeOff m).2 = [2; seq; 2; 0; 1; 0]
  ∧ (Land m).2 = [2; seq; 2; 0; 3; 0]
  ∧ (FlatTrim m).2 = [2; seq; 2; 0; 0; 0]
  ∧ (Emergency m).2 = [2; seq; 2; 0; 4; 0]
  ∧ (GenerateAllStates m).2 = [4; seq; 0; 4; 1; 0] ++ utf8 "2014-10-28" ++ [0]
  ∧ (FrontFlip m).2 = [2; seq; 2; 4; 0; 0; 0; 0; 0; 0]
  ∧ (BackFlip m).2 = [2; seq; 2; 4; 0; 0; 1; 0; 0; 0]
  ∧ (RightFlip m).2 = [2; seq; 2; 4; 0; 0; 2; 0; 0; 0]
  ∧ (LeftFlip m).2 = [2; seq; 2; 4; 0; 0; 3; 0; 0; 0].
Proof.
  cbv zeta.
  unfold TakeOff, Land, FlatTrim, Emergency, GenerateAllStates,
    FrontFlip, BackFlip, RightFlip, LeftFlip, generateAnimation.
  cbn [snd stepsfa0b set_stepsfa0b].
  rewrite seq_byte_uint16_incr.
  repeat split; reflexivity.
Qed.

(** ** Status decoder *)

(** C8: a notification shorter than 5 bytes is ignored: the decoder returns
    normally, the driver state (the [Flying] flag included) is what it was,
    and the observer is not called. *)
Theorem short_notification_ignored (m : Minidrone) (data : list Z) :
  (length data < 5)%nat →
  processFlightStatus m data = Some (m, []).
Proof.
  intros Hlen. unfold processFlightStatus.
  destruct (decide (length data < 5)%nat) as [_ | Hn]; [reflexivity | contradiction].
Qed.

Lemma short_notification_ignored_witness :
  processFlightStatus (PilotingStateChange (set_Flying NewMinidrone true)) [1; 1; 1; 1]
  = Some (PilotingStateChange (set_Flying NewMinidrone true), []).
Proof. apply short_notification_ignored. simpl. lia. Defined.

Lemma set_Flying_same (m : Minidrone) : set_Flying m (Flying m) = m.
Proof. destruct m; reflexivity. Qed.

Lemma processFlightStatus_flying_state (m : Minidrone) (data : list Z) (substate : Z) :
  FlyingStateChanged data substate →
  processFlightStatus m data =
    Some (set_Flying m (flying_after (Flying m) substate),
          if pilotingStateHandler m
          then [Handler PilotingStateFlyingStateChanged substate] else []).
Proof.
  intros [H4 H6]. unfold processFlightStatus, index.
  destruct (decide (length data < 5)%nat) as [Hlt | _].
  { apply lookup_lt_Some in H4. lia. }
  rewrite H4. cbn [mbind option_bind].
  change (PilotingStateFlyingStateChanged =? PilotingStateFlatTrimChanged) with false.
  change (PilotingStateFlyingStateChanged =? PilotingStateFlyingStateChanged) with true.
  cbn iota. rewrite H6. reflexivity.
Qed.

(** C4: on a [FlyingStateChanged] notification the sub-state at byte 6
    decides [Flying]: Landed gives false, Hovering and Flying give true,
    TakingOff, Landing, Emergency and Rolling leave it as it was; a
    registered observer is called once with the category and the sub-state
    in every case; two Landed notifications in a row both return normally
    with [Flying] false after each. *)
Theorem flying_state_changed_updates_Flying :
  (∀ m data substate,
     FlyingStateChanged data substate →
     ∃ m', processFlightStatus m data =
             Some (m', if pilotingStateHandler m
                       then [Handler PilotingStateFlyingStateChanged substate]
                       else [])
       ∧ (substate = FlyingStateLanded → Flying m' = false)
       ∧ (substate = FlyingStateHovering ∨ substate = FlyingStateFlying →
          Flying m' = true)
       ∧ (substate = FlyingStateTakeoff ∨ substate = FlyingStateLanding ∨
          substate = FlyingStateEmergency ∨ substate = FlyingStateRolling →
          m' = m)
       ∧ pcmd m' = pcmd m ∧ stepsfa0a m' = stepsfa0a m
       ∧ stepsfa0b m' = stepsfa0b m ∧ pcmddata m' = pcmddata m)
  ∧ (∀ m d1 d2,
       FlyingStateChanged d1 FlyingStateLanded →
       FlyingStateChanged d2 FlyingStateLanded →
       ∃ m1 e1 m2 e2,
         processFlightStatus m d1 = Some (m1, e1) ∧ Flying m1 = false ∧
         processFlightStatus m1 d2 = Some (m2, e2) ∧ Flying m2 = false ∧
         m2 = m1).
Proof.
  split.
  - intros m data substate Hfs.
    eexists. split; [apply processFlightStatus_flying_state, Hfs |].
    repeat split.
    + intros ->. cbn. destruct (Flying m); reflexivity.
    + intros [-> | ->]; cbn; destruct (Flying m); reflexivity.
    + intros [-> | [-> | [-> | ->]]]; cbn; apply set_Flying_same.
  - intros m d1 d2 H1 H2.
    rewrite (processFlightStatus_flying_state m d1 _ H1).
    do 2 eexists.
    rewrite (processFlightStatus_flying_state _ d2 _ H2).
    do 2 eexists.
    split; [reflexivity |].
    split; [cbn; destruct (Flying m); reflexivity |].
    split; [reflexivity |].
    split; [cbn; destruct (Flying m); reflexivity |].
    destruct m as [? ? ? [] ? ? ?]; reflexivity.
Qed.

Lemma flying_state_changed_updates_Flying_witness :
  (∃ m', processFlightStatus (PilotingStateChange NewMinidrone) [2; 5; 2; 3; 1; 0; 2]
         = Some (m', [Handler 1 2]) ∧ Flying m' = true)
  ∧ (∃ m1 e1 m2 e2,
       processFlightStatus (set_Flying NewMinidrone true) [2; 6; 2; 3; 1; 0; 0]
         = Some (m1, e1) ∧ Flying m1 = false ∧
       processFlightStatus m1 [2; 7; 2; 3; 1; 0; 0] = Some (m2, e2) ∧
       Flying m2 = false).
Proof.
  destruct flying_state_changed_updates_Flying as [Hone Htwo].
  split.
  - destruct (Hone (PilotingStateChange NewMinidrone) [2; 5; 2; 3; 1; 0; 2] 2)
      as (m' & Hrun & _ & Htrue & _).
    { split; reflexivity. }
    exists m'. split; [exact Hrun | apply Htrue; left; reflexivity].
  - destruct (Htwo (set_Flying NewMinidrone true)
                [2; 6; 2; 3; 1; 0; 0] [2; 7; 2; 3; 1; 0; 0])
      as (m1 & e1 & m2 & e2 & Ha & Hb & Hc & Hd & _).
    { split; reflexivity. }
    { split; reflexivity. }
    exists m1, e1, m2, e2. repeat split; assumption.
Defined.

(** C10: a [FlyingStateChanged] notification of 5 or 6 bytes passes the
    length guard and then indexes byte 6, outside the frame: the decoder
    aborts instead of returning. *)
Theorem flying_state_short_frame_aborts (m : Minidrone) (data : list Z) :
  (5 ≤ length data < 7)%nat →
  data !! 4%nat = Some PilotingStateFlyingStateChanged →
  processFlightStatus m data = None.
Proof.
  intros Hlen H4. unfold processFlightStatus, index.
  destruct (decide (length data < 5)%nat) as [Hlt | _]; [lia |].
  rewrite H4. cbn [mbind option_bind].
  change (PilotingStateFlyingStateChanged =? PilotingStateFlatTrimChanged) with false.
  change (PilotingStateFlyingStateChanged =? PilotingStateFlyingStateChanged) with true.
  cbn iota.
  rewrite (lookup_ge_None_2 data 6) by lia. reflexivity.
Qed.

Lemma flying_state_short_frame_aborts_witness :
  processFlightStatus NewMinidrone [2; 9; 2; 3; 1] = None
  ∧ processFlightStatus NewMinidrone [2; 9; 2; 3; 1; 0] = None.
Proof.
  split; apply flying_state_short_frame_aborts;
    solve [simpl; lia | reflexivity].
Defined.

(** ** The piloting-command frame *)

Lemma store_Some (b : list Z) (i : nat) (v : Z) :
  (i < length b)%nat → store b i v = Some (<[i:=v]> b).
Proof. intros Hi. unfold store. rewrite decide_True by exact Hi. reflexivity. Qed.

Lemma PutUint32_Some (b : list Z) (off : nat) (v : Z) :
  (off + 3 < length b)%nat →
  ∃ b', PutUint32 b off v = Some b' ∧ length b' = length b
        ∧ b' !! off = Some (byte v)
        ∧ b' !! (off + 1)%nat = Some (byte (Z.shiftr v 8))
        ∧ b' !! (off + 2)%nat = Some (byte (Z.shiftr v 16))
        ∧ b' !! (off + 3)%nat = Some (byte (Z.shiftr v 24)).
Proof.
  intros Hlen. unfold PutUint32. rewrite decide_True by exact Hlen.
  eexists. split; [reflexivity |].
  split; [rewrite !length_insert; reflexivity |].
  repeat split.
  - rewrite !list_lookup_insert_ne by lia.
    apply list_lookup_insert_eq. lia.
  - rewrite !list_lookup_insert_ne by lia.
    apply list_lookup_insert_eq. rewrite length_insert. lia.
  - rewrite list_lookup_insert_ne by lia.
    apply list_lookup_insert_eq. rewrite !length_insert. lia.
  - apply list_lookup_insert_eq. rewrite !length_insert. lia.
Qed.

(** What one tick does to the driver whose buffers are as allocated: the
    frame buffer gets bytes 0..10 and 15..18, bytes 11..14 stay what they
    were, and the heading lands in the scratch buffer. *)
Lemma generatePcmd_frame (m : Minidrone) :
  buffers_ok m →
  ∃ m', generatePcmd m = Some m'
    ∧ pcmddata m' =
        [2; (stepsfa0a m + 1) mod 256; 2; 0; 2; 0;
         byte (Flag (pcmd m)); byte (Roll (pcmd m)); byte (Pitch (pcmd m));
         byte (Yaw (pcmd m)); byte (Gaz (pcmd m))]
        ++ take 4 (drop 11 (pcmddata m)) ++ [0; 0; 0; 0]
    ∧ stepsfa0a m' = uint16_incr (stepsfa0a m)
    ∧ stepsfa0b m' = stepsfa0b m
    ∧ pcmd m' = pcmd m
    ∧ Flying m' = Flying m
    ∧ pilotingStateHandler m' = pilotingStateHandler m
    ∧ buffers_ok m'.
Proof.
  intros [Hd Hb]. unfold generatePcmd.
  destruct (PutUint32_Some (buf m) 11 (Float32bits (Psi (pcmd m))))
    as (b' & Hput & Hlen' & _); [lia |].
  repeat (rewrite store_Some by (rewrite ?length_insert; lia); cbn [mbind option_bind]).
  rewrite Hput. cbn [mbind option_bind].
  repeat (rewrite store_Some by (rewrite ?length_insert; lia); cbn [mbind option_bind]).
  eexists. split; [reflexivity |]. cbn [pcmddata stepsfa0a stepsfa0b pcmd Flying
    pilotingStateHandler buf].
  split.
  - rewrite byte_uint16_incr.
    destruct (pcmddata m) as [|x0 [|x1 [|x2 [|x3 [|x4 [|x5 [|x6 [|x7 [|x8 [|x9
      [|x10 [|x11 [|x12 [|x13 [|x14 [|x15 [|x16 [|x17 [|x18 [|x19 l]]]]]]]]]]]]]]]]]]]];
      try discriminate Hd.
    reflexivity.
  - repeat split; try reflexivity; cbn [pcmddata buf].
    + rewrite !length_insert. exact Hd.
    + rewrite Hlen'. exact Hb.
Qed.

(** C1: with heading 1.0 in the motion vector, one tick yields a 19-byte
    frame whose bytes 0..10 and 15..18 follow the layout, but whose bytes
    11..14 are still zero and decode to +0; the encoding of 1.0
    ([00 00 80 3F]) is in the scratch buffer [buf], which is never sent. *)
Theorem generatePcmd_heading_not_in_frame :
  let m := set_pcmd NewMinidrone
             {| Flag := 1; Roll := 0; Pitch := 50; Yaw := 0; Gaz := 0;
                Psi := float32_one |} in
  float32_value (Psi (pcmd m)) = S754_finite false 8388608 (-23)
  ∧ ∃ m', generatePcmd m = Some m'
      ∧ pcmddata m' = [2; 1; 2; 0; 2; 0; 1; 0; 50; 0; 0; 0; 0; 0; 0; 0; 0; 0; 0]
      ∧ length (pcmddata m') = 19%nat
      ∧ frame_heading (pcmddata m') = Some float32_zero
      ∧ float32_value float32_zero = S754_zero false
      ∧ frame_heading (pcmddata m') ≠ Some (Psi (pcmd m))
      ∧ take 4 (drop 11 (buf m')) = [0; 0; 128; 63]
      ∧ Float32frombits <$> Uint32 (buf m') 11 = Some (Psi (pcmd m)).
Proof.
  cbv zeta. split; [reflexivity |].
  eexists. split; [vm_compute; reflexivity |].
  cbn [pcmddata buf pcmd set_pcmd Psi].
  split; [reflexivity |].
  split; [reflexivity |].
  split; [reflexivity |].
  split; [reflexivity |].
  split; [vm_compute; discriminate |].
  split; reflexivity.
Qed.

(** ** Sequence counters *)

Lemma encode_seq (c : command) (m : Minidrone) :
  frame_seq (encode c m).2 = Some ((stepsfa0b m + 1) mod 256)
  ∧ stepsfa0b (encode c m).1 = uint16_incr (stepsfa0b m)
  ∧ stepsfa0a (encode c m).1 = stepsfa0a m.
Proof.
  destruct c; cbn; rewrite seq_byte_uint16_incr; repeat split; reflexivity.
Qed.

Lemma encode_all_seqs (cs : list command) (m : Minidrone) :
  frame_seq <$> (encode_all cs m).2 = expected_seqs (stepsfa0b m) (length cs)
  ∧ stepsfa0a (encode_all cs m).1 = stepsfa0a m.
Proof.
  revert m. induction cs as [| c cs IH]; intros m.
  - split; reflexivity.
  - destruct (encode_seq c m) as (Hseq & Hb & Ha).
    destruct (IH (encode c m).1) as [IHs IHa].
    cbn [encode_all length fst snd fmap list_fmap].
    rewrite expected_seqs_S. split.
    + change (list_fmap _ _ frame_seq ?l) with (frame_seq <$> l).
      rewrite IHs, Hseq, Hb. reflexivity.
    + rewrite IHa. exact Ha.
Qed.

Lemma pcmd_ticks_seqs (n : nat) (m : Minidrone) :
  buffers_ok m →
  ∃ m' frames, pcmd_ticks n m = Some (m', frames)
    ∧ frame_seq <$> frames = expected_seqs (stepsfa0a m) n
    ∧ Forall (λ f, length f = 19%nat) frames
    ∧ stepsfa0b m' = stepsfa0b m.
Proof.
  revert m. induction n as [| n IH]; intros m Hok.
  - exists m, []. repeat split. constructor.
  - destruct (generatePcmd_frame m Hok)
      as (m1 & Hgen & Hdata & Ha & Hb & _ & _ & _ & Hok1).
    destruct (IH m1 Hok1) as (m' & frames & Hrun & Hseqs & Hlens & Hb').
    exists m', (pcmddata m1 :: frames).
    cbn [pcmd_ticks]. rewrite Hgen. cbn [mbind option_bind].
    rewrite Hrun. cbn [mbind option_bind fst snd].
    split; [reflexivity |].
    rewrite expected_seqs_S. split; [| split].
    + cbn [fmap list_fmap].
      change (list_fmap _ _ frame_seq ?l) with (frame_seq <$> l).
      rewrite Hseqs, Ha. f_equal. rewrite Hdata. reflexivity.
    + constructor; [apply Hok1 | exact Hlens].
    + rewrite Hb'. exact Hb.
Qed.

Lemma expected_seqs_NoDup (seq0 : Z) (n : nat) :
  (n ≤ 256)%nat → NoDup (expected_seqs seq0 n).
Proof.
  intros Hn. unfold expected_seqs.
  apply NoDup_fmap_2_strong; [| apply NoDup_seq].
  intros a b Ha Hb Heq.
  apply elem_of_seq in Ha, Hb.
  injection Heq as Heq.
  pose proof (Z.div_mod (seq0 + Z.of_nat a) 256 ltac:(lia)) as Da.
  pose proof (Z.div_mod (seq0 + Z.of_nat b) 256 ltac:(lia)) as Db.
  rewrite Heq in Da. lia.
Qed.

Lemma move_keeps_counters (mv : motion) (m : Minidrone) :
  stepsfa0a (move mv m) = stepsfa0a m ∧ stepsfa0b (move mv m) = stepsfa0b m.
Proof. destruct mv; split; reflexivity. Qed.

(** C2: [N] consecutive encodes on one channel carry the sequence bytes
    [(seq0+1) mod 256, (seq0+2) mod 256, ...], where [seq0] is the
    channel's counter before the first encode: on the command channel for
    any mix of TakeOff, Land, FlatTrim, Emergency, animation and settings
    frames, on the piloting channel for [generatePcmd] ticks.  Up to 256
    consecutive values are pairwise distinct, 255 is followed by 0, and no
    operation of one channel (nor any motion command) changes the counter
    of the other. *)
Theorem sequence_bytes_consecutive :
  (∀ cs m,
     frame_seq <$> (encode_all cs m).2 = expected_seqs (stepsfa0b m) (length cs)
     ∧ stepsfa0a (encode_all cs m).1 = stepsfa0a m)
  ∧ (∀ n m, buffers_ok m →
       ∃ m' frames, pcmd_ticks n m = Some (m', frames)
         ∧ frame_seq <$> frames = expected_seqs (stepsfa0a m) n
         ∧ stepsfa0b m' = stepsfa0b m)
  ∧ (∀ seq0 n k, (k < n)%nat →
       expected_seqs seq0 n !! k = Some (Some ((seq0 + Z.of_nat k + 1) mod 256)))
  ∧ (∀ seq0 n, (n ≤ 256)%nat → NoDup (expected_seqs seq0 n))
  ∧ (∀ seq0, seq0 mod 256 = 255 → expected_seqs seq0 2 = [Some 0; Some 1])
  ∧ (∀ mv m, stepsfa0a (move mv m) = stepsfa0a m
             ∧ stepsfa0b (move mv m) = stepsfa0b m).
Proof.
  split; [exact encode_all_seqs |].
  split.
  { intros n m Hok.
    destruct (pcmd_ticks_seqs n m Hok) as (m' & frames & H1 & H2 & _ & H3).
    exists m', frames. auto. }
  split.
  { intros seq0 n k Hk. unfold expected_seqs.
    rewrite list_lookup_fmap, lookup_seq_lt by exact Hk.
    cbn. do 3 f_equal. lia. }
  split; [exact expected_seqs_NoDup |].
  split; [| exact move_keeps_counters].
  intros seq0 H255.
  pose proof (Z.div_mod seq0 256 ltac:(lia)) as D. rewrite H255 in D.
  assert (E1 : (seq0 + 1) mod 256 = 0).
  { replace (seq0 + 1) with (0 + (seq0 / 256 + 1) * 256) by lia.
    rewrite Z.mod_add by lia. reflexivity. }
  assert (E2 : (seq0 + 2) mod 256 = 1).
  { replace (seq0 + 2) with (1 + (seq0 / 256 + 1) * 256) by lia.
    rewrite Z.mod_add by lia. reflexivity. }
  unfold expected_seqs. cbn [seq fmap list_fmap].
  change (Z.of_nat 1) with 1. change (Z.of_nat 2) with 2.
  rewrite E1, E2. reflexivity.
Qed.

Lemma sequence_bytes_consecutive_witness :
  (∃ m' frames,
     pcmd_ticks 3 (mkMinidrone (replicate 255 0) 254 7 false zero_Pcmd
                     (replicate 19 0) false) = Some (m', frames)
     ∧ frame_seq <$> frames = [Some 255; Some 0; Some 1]
     ∧ stepsfa0b m' = 7)
  ∧ frame_seq <$> (encode_all [CmdTakeOff; CmdAnimation 1; CmdLand]
                     (mkMinidrone (replicate 255 0) 9 65535 false zero_Pcmd
                        (replicate 19 0) false)).2
    = [Some 0; Some 1; Some 2]
  ∧ NoDup (expected_seqs 200 256).
Proof.
  destruct sequence_bytes_consecutive as (Hcmd & Hpcmd & _ & Hnodup & _).
  split; [| split].
  - destruct (Hpcmd 3%nat (mkMinidrone (replicate 255 0) 254 7 false zero_Pcmd
                             (replicate 19 0) false))
      as (m' & frames & Hrun & Hseqs & Hb).
    { split; reflexivity. }
    exists m', frames. split; [exact Hrun |]. split; [exact Hseqs | exact Hb].
  - exact (proj1 (Hcmd [CmdTakeOff; CmdAnimation 1; CmdLand]
                    (mkMinidrone (replicate 255 0) 9 65535 false zero_Pcmd
                       (replicate 19 0) false))).
  - apply Hnodup. lia.
Defined.

(** ** The loop and [Halt] *)

Lemma encode_buffers_ok (c : command) (m : Minidrone) :
  buffers_ok m → buffers_ok (encode c m).1.
Proof. destruct c; exact id. Qed.

Lemma move_buffers_ok (mv : motion) (m : Minidrone) :
  buffers_ok m → buffers_ok (move mv m).
Proof. destruct mv; exact id. Qed.

Lemma step_loop_tick (s : session) (ok : option string) :
  loop s = LoopTick → buffers_ok (drone s) →
  ∃ m', generatePcmd (drone s) = Some m' ∧ buffers_ok m'
    ∧ step (RunLoop ok) s =
        Next {| drone := m'; loop := LoopSleep; caller := caller s;
                calls := calls s;
                trace := trace s ++
                  Write pcmdCharacteristic (pcmddata m') (delivered ok) ::
                  report ok |}.
Proof.
  intros Hpc Hok.
  destruct (generatePcmd_frame (drone s) Hok) as (m' & Hgen & Hrest).
  exists m'. split; [exact Hgen |].
  split; [apply Hrest |].
  cbn [step]. unfold step_loop. rewrite Hpc, Hgen. reflexivity.
Qed.

Lemma step_buffers_ok (c : choice) (s s' : session) :
  buffers_ok (drone s) → step c s = Next s' → buffers_ok (drone s').
Proof.
  intros Hok Hstep. destruct c as [ok | ok]; cbn [step] in Hstep.
  - destruct (loop s) eqn:Hpc.
    5: { unfold step_loop in Hstep. rewrite Hpc in Hstep. discriminate. }
    3: { destruct (step_loop_tick s ok Hpc Hok) as (m' & _ & Hok' & Hs).
         cbn [step] in Hs. rewrite Hs in Hstep.
         injection Hstep as <-. exact Hok'. }
    all: unfold step_loop in Hstep; rewrite Hpc in Hstep.
    2: destruct (caller s).
    all: injection Hstep as <-; exact Hok.
  - unfold step_caller in Hstep.
    destruct (caller s); [| discriminate |].
    + destruct (calls s) as [| [[c | mv] |] rest]; [discriminate | | |];
        injection Hstep as <-; cbn [drone].
      * apply encode_buffers_ok, Hok.
      * apply move_buffers_ok, Hok.
      * exact Hok.
    + injection Hstep as <-. exact Hok.
Qed.

Lemma step_never_aborts (c : choice) (s : session) :
  buffers_ok (drone s) → step c s ≠ Abort.
Proof.
  intros Hok. destruct c as [ok | ok]; cbn [step].
  - destruct (loop s) eqn:Hpc.
    3: { destruct (step_loop_tick s ok Hpc Hok) as (m' & _ & _ & Hs).
         cbn [step] in Hs. rewrite Hs. discriminate. }
    all: unfold step_loop; rewrite Hpc; try discriminate.
    destruct (caller s); discriminate.
  - unfold step_caller.
    destruct (caller s); try discriminate.
    destruct (calls s) as [| [[c | mv] |] rest]; discriminate.
Qed.

Lemma step_one_signal (c : choice) (s s' : session) :
  one_signal s → step c s = Next s' → one_signal s'.
Proof.
  intros [Hok Hbudget] Hstep.
  split; [exact (step_buffers_ok c s s' Hok Hstep) |].
  unfold signals_left, loop_gone in *.
  destruct c as [ok | ok]; cbn [step] in Hstep.
  - destruct (loop s) eqn:Hpc.
    5: { unfold step_loop in Hstep. rewrite Hpc in Hstep. discriminate. }
    3: { destruct (step_loop_tick s ok Hpc Hok) as (m' & _ & _ & Hs).
         cbn [step] in Hs. rewrite Hs in Hstep.
         injection Hstep as <-. cbn [calls caller loop]. lia. }
    all: unfold step_loop in Hstep; rewrite Hpc in Hstep.
    2: destruct (caller s) eqn:Hcaller.
    all: injection Hstep as <-; cbn [calls caller loop];
      rewrite ?Hcaller; lia.
  - unfold step_caller in Hstep.
    destruct (caller s) eqn:Hcaller; [| discriminate |].
    + destruct (calls s) as [| [[c | mv] |] rest] eqn:Hcalls; [discriminate | | |];
        injection Hstep as <-; cbn [calls caller loop halts] in *; lia.
    + injection Hstep as <-. cbn [calls caller loop]. lia.
Qed.

Lemma reachable_one_signal (s0 s : session) :
  one_signal s0 → reachable s0 s → one_signal s.
Proof.
  intros H0 Hreach. induction Hreach as [| s c s' _ IH Hstep]; [exact H0 |].
  exact (step_one_signal c s s' IH Hstep).
Qed.

Lemma reachable_run (s0 s s' : session) (cs : list choice) :
  reachable s0 s → run cs s = Next s' → reachable s0 s'.
Proof.
  revert s. induction cs as [| c cs IH]; intros s Hreach Hrun; cbn [run] in Hrun.
  - injection Hrun as <-. exact Hreach.
  - destruct (step c s) as [| | s1] eqn:Hstep; try discriminate.
    apply (IH s1); [| exact Hrun].
    exact (reachable_step s0 s c s1 Hreach Hstep).
Qed.

Lemma returned_and_sending_deadlocked (s : session) :
  loop s = LoopReturned → caller s = HaltSend → deadlocked s.
Proof.
  intros Hpc Hcaller. split.
  - intros [Hready _]. rewrite Hcaller in Hready. discriminate.
  - intros [ok | ok]; cbn [step].
    + unfold step_loop. rewrite Hpc. reflexivity.
    + unfold step_caller. rewrite Hcaller. reflexivity.
Qed.

Lemma one_signal_not_deadlocked (s : session) :
  one_signal s → ¬ deadlocked s.
Proof.
  intros [Hok Hbudget] [Hnf Hstuck].
  pose proof (Hstuck (RunLoop None)) as Hl.
  pose proof (Hstuck (RunCaller true)) as Hc.
  cbn [step] in Hl, Hc.
  unfold signals_left, loop_gone in Hbudget.
  destruct (loop s) eqn:Hpc.
  3: { destruct (step_loop_tick s None Hpc Hok) as (m' & _ & _ & Hs).
       cbn [step] in Hs. rewrite Hs in Hl. discriminate. }
  1, 3: unfold step_loop in Hl; rewrite Hpc in Hl; discriminate.
  1: unfold step_loop in Hl; rewrite Hpc in Hl; destruct (caller s); discriminate.
  unfold step_caller in Hc.
  destruct (caller s) eqn:Hcaller; [| lia | discriminate].
  destruct (calls s) as [| [[c | mv] |] rest] eqn:Hcalls; try discriminate.
  apply Hnf. split; assumption.
Qed.

Lemma sender_is_served (s : session) :
  one_signal s → caller s = HaltSend →
  ∃ k, (k ≤ 3)%nat ∧ ∀ ok, ∃ s',
    run (replicate k (RunLoop ok)) s = Next s'
    ∧ loop s' = LoopReturned ∧ caller s' = HaltSleep ∧ calls s' = calls s.
Proof.
  intros [Hok Hbudget] Hcaller.
  unfold signals_left, loop_gone in Hbudget. rewrite Hcaller in Hbudget.
  destruct (loop s) eqn:Hpc; [| | | | lia].
  - exists 2%nat. split; [lia |]. intros ok. cbn [replicate run step].
    unfold step_loop at 1. rewrite Hpc.
    unfold step_loop. cbn [loop caller]. rewrite Hcaller.
    eexists. split; [reflexivity |]. repeat split.
  - exists 1%nat. split; [lia |]. intros ok. cbn [replicate run step].
    unfold step_loop. rewrite Hpc, Hcaller.
    eexists. split; [reflexivity |]. repeat split.
  - exists 3%nat. split; [lia |]. intros ok.
    destruct (step_loop_tick s ok Hpc Hok) as (m' & _ & _ & Hs).
    cbn [replicate run]. rewrite Hs. cbn [step].
    unfold step_loop at 1. cbn [loop].
    unfold step_loop. cbn [loop caller]. rewrite Hcaller.
    eexists. split; [reflexivity |]. repeat split.
  - exists 2%nat. split; [lia |]. intros ok. cbn [replicate run step].
    unfold step_loop at 1. rewrite Hpc.
    unfold step_loop. cbn [loop caller]. rewrite Hcaller.
    eexists. split; [reflexivity |]. repeat split.
Qed.

Lemma step_returns_only_on_signal (c : choice) (s s' : session) :
  step c s = Next s' → loop s ≠ LoopReturned → loop s' = LoopReturned →
  loop s = LoopSelect ∧ caller s = HaltSend ∧ ∃ ok, c = RunLoop ok.
Proof.
  intros Hstep Hrun Hret. destruct c as [ok | ok]; cbn [step] in Hstep.
  - unfold step_loop in Hstep.
    destruct (loop s) eqn:Hpc; try contradiction.
    + injection Hstep as <-. discriminate Hret.
    + destruct (caller s) eqn:Hcaller;
        injection Hstep as <-; try discriminate Hret.
      repeat split. exists ok. reflexivity.
    + destruct (generatePcmd (drone s)); [| discriminate].
      injection Hstep as <-. discriminate Hret.
    + injection Hstep as <-. discriminate Hret.
  - unfold step_caller in Hstep.
    destruct (caller s); [| discriminate |].
    + destruct (calls s) as [| [[c | mv] |] rest]; [discriminate | | |];
        injection Hstep as <-; cbn [loop] in Hret; contradiction.
    + injection Hstep as <-. cbn [loop] in Hret. contradiction.
Qed.

Lemma step_unsignalled (c : choice) (s s' : session) :
  signals_left s = 0%nat → loop s ≠ LoopReturned → step c s = Next s' →
  signals_left s' = 0%nat ∧ loop s' ≠ LoopReturned.
Proof.
  intros Hleft Hrun Hstep.
  assert (Hloop : loop s' ≠ LoopReturned).
  { intros Hret.
    destruct (step_returns_only_on_signal c s s' Hstep Hrun Hret) as (_ & Hsend & _).
    unfold signals_left in Hleft. rewrite Hsend in Hleft. lia. }
  split; [| exact Hloop].
  unfold signals_left in *.
  destruct c as [ok | ok]; cbn [step] in Hstep.
  - unfold step_loop in Hstep.
    destruct (loop s) eqn:Hpc; try contradiction.
    + injection Hstep as <-. exact Hleft.
    + destruct (caller s) eqn:Hcaller; injection Hstep as <-;
        cbn [calls caller]; rewrite ?Hcaller; lia.
    + destruct (generatePcmd (drone s)); [| discriminate].
      injection Hstep as <-. exact Hleft.
    + injection Hstep as <-. exact Hleft.
  - unfold step_caller in Hstep.
    destruct (caller s) eqn:Hcaller; [| discriminate |].
    + destruct (calls s) as [| [[c | mv] |] rest] eqn:Hcalls; [discriminate | | |];
        injection Hstep as <-; cbn [calls caller halts] in *; lia.
    + injection Hstep as <-. cbn [calls caller]. lia.
Qed.

Lemma loop_steps_while_running (s : session) (ok : option string) :
  buffers_ok (drone s) → loop s ≠ LoopReturned →
  ∃ s', step (RunLoop ok) s = Next s'.
Proof.
  intros Hok Hrun. destruct (loop s) eqn:Hpc; try contradiction.
  3: { destruct (step_loop_tick s ok Hpc Hok) as (m' & _ & _ & Hs). eauto. }
  all: cbn [step]; unfold step_loop; rewrite Hpc; eauto.
  destruct (caller s); eauto.
Qed.

Lemma reachable_buffers_ok (s0 s : session) :
  buffers_ok (drone s0) → reachable s0 s → buffers_ok (drone s).
Proof.
  intros H0 Hreach. induction Hreach as [| s c s' _ IH Hstep]; [exact H0 |].
  exact (step_buffers_ok c s s' IH Hstep).
Qed.

Lemma reachable_unsignalled (s0 s : session) :
  signals_left s0 = 0%nat → loop s0 ≠ LoopReturned → reachable s0 s →
  signals_left s = 0%nat ∧ loop s ≠ LoopReturned.
Proof.
  intros Hleft Hrun Hreach.
  induction Hreach as [| s c s' _ IH Hstep]; [split; assumption |].
  destruct IH as [IH1 IH2]. exact (step_unsignalled c s s' IH1 IH2 Hstep).
Qed.

Lemma started_one_signal (m : Minidrone) (cs : list call) :
  buffers_ok m → (halts cs ≤ 1)%nat → one_signal (started m cs).
Proof.
  intros Hok Hh. split; [exact Hok |].
  unfold signals_left, loop_gone. cbn [started calls caller loop]. lia.
Qed.

(** C5, as stated, fails: two [Halt] calls on a started session run into a
    state where the loop has returned and the caller is parked on the
    shutdown send with nobody left to receive: no goroutine can move. *)
Lemma Halt_twice_deadlocks :
  run [RunCaller true; RunLoop None; RunLoop None; RunCaller true; RunCaller true]
      (started NewMinidrone [CallHalt; CallHalt]) = Next after_second_Halt
  ∧ deadlocked after_second_Halt
  ∧ ¬ tolerated [CallHalt; CallHalt].
Proof.
  assert (Hrun : run [RunCaller true; RunLoop None; RunLoop None;
                      RunCaller true; RunCaller true]
                   (started NewMinidrone [CallHalt; CallHalt])
                 = Next after_second_Halt) by reflexivity.
  assert (Hdead : deadlocked after_second_Halt)
    by (apply returned_and_sending_deadlocked; reflexivity).
  split; [exact Hrun |]. split; [exact Hdead |].
  intros Htol.
  destruct (Htol NewMinidrone after_second_Halt) as [_ Hnd].
  - split; reflexivity.
  - exact (reachable_run _ _ _ _ (reachable_here _) Hrun).
  - exact (Hnd Hdead).
Qed.

(** C5, amended: a program with at most one [Halt] never aborts and never
    deadlocks, and a caller parked on the shutdown send is served within
    three steps of the loop, which takes the signal at its [select] and
    returns; once the loop has returned, a caller that reaches the send
    again stays parked: no step is possible, and nothing aborts. *)
Theorem Halt_once_served_second_blocks :
  (∀ cs, (halts cs ≤ 1)%nat → tolerated cs)
  ∧ (∀ m cs s,
       buffers_ok m → (halts cs ≤ 1)%nat →
       reachable (started m cs) s → caller s = HaltSend →
       ∃ k, (k ≤ 3)%nat ∧ ∀ ok, ∃ s',
         run (replicate k (RunLoop ok)) s = Next s'
         ∧ loop s' = LoopReturned ∧ caller s' = HaltSleep ∧ calls s' = calls s)
  ∧ (∀ s, loop s = LoopReturned → caller s = HaltSend →
       (∀ c, step c s = Stuck) ∧ ¬ finished s).
Proof.
  split; [| split].
  - intros cs Hh m s Hok Hreach.
    pose proof (reachable_one_signal _ s (started_one_signal m cs Hok Hh) Hreach)
      as Hone.
    split.
    + intros c. apply step_never_aborts, Hone.
    + apply one_signal_not_deadlocked, Hone.
  - intros m cs s Hok Hh Hreach Hsend.
    apply sender_is_served; [| exact Hsend].
    exact (reachable_one_signal _ s (started_one_signal m cs Hok Hh) Hreach).
  - intros s Hpc Hsend.
    destruct (returned_and_sending_deadlocked s Hpc Hsend) as [Hnf Hstuck].
    split; assumption.
Qed.

Lemma Halt_once_served_second_blocks_witness :
  tolerated [CallOp (Discrete CmdTakeOff); CallOp (Motion (MUp 30)); CallHalt]
  ∧ (∀ c, step c after_second_Halt = Stuck).
Proof.
  destruct Halt_once_served_second_blocks as (Honce & _ & Hblocks).
  split.
  - apply Honce. simpl. lia.
  - apply (Hblocks after_second_Halt); reflexivity.
Defined.

Lemma frames_on_app (c : characteristic) (t1 t2 : list event) :
  frames_on c (t1 ++ t2) = frames_on c t1 ++ frames_on c t2.
Proof. unfold frames_on. apply omap_app. Qed.

Lemma select_without_signal (s : session) (w : option string) :
  loop s = LoopSelect → caller s ≠ HaltSend →
  step (RunLoop w) s =
    Next {| drone := drone s; loop := LoopTick; caller := caller s;
            calls := calls s; trace := trace s |}.
Proof.
  intros Hpc Hcaller. cbn [step]. unfold step_loop. rewrite Hpc.
  destruct (caller s); [reflexivity | contradiction | reflexivity].
Qed.

Lemma one_whole_tick (s : session) (w : option string) :
  buffers_ok (drone s) → loop s = LoopSelect → caller s ≠ HaltSend →
  ∃ m1, generatePcmd (drone s) = Some m1 ∧ buffers_ok m1
    ∧ ∀ rest,
        run (RunLoop w :: RunLoop w :: RunLoop w :: rest) s =
        run rest {| drone := m1; loop := LoopSelect; caller := caller s;
                    calls := calls s;
                    trace := trace s ++
                      Write pcmdCharacteristic (pcmddata m1) (delivered w) ::
                      report w |}.
Proof.
  intros Hok Hpc Hcaller.
  pose proof (select_without_signal s w Hpc Hcaller) as Hsel.
  set (s1 := {| drone := drone s; loop := LoopTick; caller := caller s;
                calls := calls s; trace := trace s |}) in *.
  destruct (step_loop_tick s1 w eq_refl Hok) as (m1 & Hgen & Hok1 & Htick).
  exists m1. split; [exact Hgen |]. split; [exact Hok1 |].
  intros rest. cbn [run]. rewrite Hsel. cbn [run]. rewrite Htick. reflexivity.
Qed.

Lemma ticks_run (writes : list (option string)) (s : session) :
  buffers_ok (drone s) → loop s = LoopSelect → caller s ≠ HaltSend →
  ∃ s' frames,
    run (ticks writes) s = Next s'
    ∧ loop s' = LoopSelect ∧ caller s' = caller s ∧ calls s' = calls s
    ∧ pcmd_ticks (length writes) (drone s) = Some (drone s', frames)
    ∧ trace s' = trace s ++ tick_events frames writes.
Proof.
  revert s. induction writes as [| w writes IH]; intros s Hok Hpc Hcaller.
  - exists s, []. cbn [ticks run length pcmd_ticks tick_events].
    rewrite app_nil_r. repeat split; [exact Hpc].
  - destruct (one_whole_tick s w Hok Hpc Hcaller) as (m1 & Hgen & Hok1 & Hrun).
    destruct (IH {| drone := m1; loop := LoopSelect; caller := caller s;
                    calls := calls s;
                    trace := trace s ++
                      Write pcmdCharacteristic (pcmddata m1) (delivered w) ::
                      report w |} Hok1 eq_refl Hcaller)
      as (s' & frames & Hrest & Hpc' & Hcaller' & Hcalls' & Hticks & Htrace).
    cbn [drone caller calls trace] in *.
    exists s', (pcmddata m1 :: frames).
    cbn [ticks]. rewrite Hrun, Hrest.
    split; [reflexivity |]. split; [exact Hpc' |].
    split; [exact Hcaller' |]. split; [exact Hcalls' |].
    split.
    + cbn [length pcmd_ticks]. rewrite Hgen. cbn [mbind option_bind].
      rewrite Hticks. reflexivity.
    + rewrite Htrace. cbn [tick_events].
      rewrite <- !app_assoc. reflexivity.
Qed.

Lemma tick_events_frames (frames : list (list Z)) (writes : list (option string)) :
  length frames = length writes →
  frames_on pcmdCharacteristic (tick_events frames writes) = frames.
Proof.
  revert writes. induction frames as [| f frames IH]; intros [| w writes] Hlen;
    try discriminate Hlen; [reflexivity |].
  cbn [tick_events]. injection Hlen as Hlen.
  change (Write pcmdCharacteristic f (delivered w) :: report w
            ++ tick_events frames writes)
    with ([Write pcmdCharacteristic f (delivered w)] ++ report w
            ++ tick_events frames writes).
  rewrite !frames_on_app, (IH writes Hlen).
  destruct w; reflexivity.
Qed.

Lemma pcmd_ticks_length (n : nat) (m m' : Minidrone) (frames : list (list Z)) :
  pcmd_ticks n m = Some (m', frames) → length frames = n.
Proof.
  revert m m' frames. induction n as [| n IH]; intros m m' frames H; cbn in H.
  - injection H as _ <-. reflexivity.
  - destruct (generatePcmd m) as [m1 |]; [| discriminate H].
    cbn [mbind option_bind] in H.
    destruct (pcmd_ticks n m1) as [[m2 fs] |] eqn:Hn; [| discriminate H].
    cbn in H. injection H as _ <-. cbn. f_equal. exact (IH _ _ _ Hn).
Qed.

(** C9: a failed transport write never ends the loop.  The tick whose write
    fails records the write, prints the error and goes on to the sleep and
    to the top of the next tick, exactly as a tick whose write succeeds;
    at the top of a tick with no shutdown signal waiting, the loop starts
    the tick; so any number of ticks in a row run to their end whatever
    each write does, one frame per tick, every failure reported.  The loop
    returns only from its [select], when the caller is handing over the
    shutdown signal; as long as no [Halt] is called it never returns and
    can always take its next step. *)
Theorem write_failure_does_not_stop_loop :
  (∀ s w, loop s = LoopTick → buffers_ok (drone s) →
     ∃ s1 s2 frame,
       step (RunLoop w) s = Next s1 ∧ loop s1 = LoopSleep
       ∧ trace s1 = trace s ++ Write pcmdCharacteristic frame (delivered w) ::
                      report w
       ∧ (∀ w', step (RunLoop w') s1 = Next s2) ∧ loop s2 = LoopSelect)
  ∧ (∀ err, report (Some err)
            = [Println (String.append "pcmd write error: " err)])
  ∧ (∀ s w, loop s = LoopSelect → caller s ≠ HaltSend →
       step (RunLoop w) s =
         Next {| drone := drone s; loop := LoopTick; caller := caller s;
                 calls := calls s; trace := trace s |})
  ∧ (∀ s writes,
       buffers_ok (drone s) → loop s = LoopSelect → caller s ≠ HaltSend →
       ∃ s' frames,
         run (ticks writes) s = Next s'
         ∧ loop s' = LoopSelect ∧ caller s' = caller s ∧ calls s' = calls s
         ∧ pcmd_ticks (length writes) (drone s) = Some (drone s', frames)
         ∧ length frames = length writes
         ∧ trace s' = trace s ++ tick_events frames writes
         ∧ frames_on pcmdCharacteristic (trace s')
           = frames_on pcmdCharacteristic (trace s) ++ frames)
  ∧ (∀ c s s',
       step c s = Next s' → loop s ≠ LoopReturned → loop s' = LoopReturned →
       loop s = LoopSelect ∧ caller s = HaltSend ∧ ∃ w, c = RunLoop w)
  ∧ (∀ m cs s,
       buffers_ok m → halts cs = 0%nat → reachable (started m cs) s →
       loop s ≠ LoopReturned ∧ ∀ w, ∃ s', step (RunLoop w) s = Next s').
Proof.
  split; [| split; [| split; [| split; [| split]]]].
  - intros s w Hpc Hok.
    destruct (step_loop_tick s w Hpc Hok) as (m' & _ & _ & Hs).
    do 3 eexists. split; [exact Hs |].
    split; [reflexivity |]. split; [reflexivity |].
    split; [intros w'; reflexivity | reflexivity].
  - intros err. reflexivity.
  - exact select_without_signal.
  - intros s writes Hok Hpc Hcaller.
    destruct (ticks_run writes s Hok Hpc Hcaller)
      as (s' & frames & Hrun & Hpc' & Hcaller' & Hcalls' & Hticks & Htrace).
    pose proof (pcmd_ticks_length _ _ _ _ Hticks) as Hlen.
    exists s', frames. repeat (split; [assumption |]).
    rewrite Htrace, frames_on_app, (tick_events_frames _ _ Hlen). reflexivity.
  - exact step_returns_only_on_signal.
  - intros m cs s Hok Hh Hreach.
    assert (Hleft : signals_left (started m cs) = 0%nat).
    { unfold signals_left. cbn [started calls caller]. lia. }
    destruct (reachable_unsignalled _ s Hleft ltac:(discriminate) Hreach)
      as [_ Hrun].
    split; [exact Hrun |].
    intros w. apply loop_steps_while_running; [| exact Hrun].
    exact (reachable_buffers_ok (started m cs) s Hok Hreach).
Qed.

Lemma write_failure_does_not_stop_loop_witness :
  (∃ s1 s2 frame,
     step (RunLoop (Some "timeout"%string)) mid_tick = Next s1
     ∧ loop s1 = LoopSleep
     ∧ trace s1 = [Write pcmdCharacteristic frame false;
                   Println "pcmd write error: timeout"]
     ∧ (∀ w', step (RunLoop w') s1 = Next s2) ∧ loop s2 = LoopSelect)
  ∧ (∃ s' frames,
       run (ticks [Some "timeout"%string; Some "busy"%string; None]) at_select
         = Next s'
       ∧ loop s' = LoopSelect
       ∧ length frames = 3%nat
       ∧ frames_on pcmdCharacteristic (trace s') = frames).
Proof.
  destruct write_failure_does_not_stop_loop as (Htick & _ & _ & Hticks & _).
  split.
  - apply (Htick mid_tick (Some "timeout"%string));
      [reflexivity | split; reflexivity].
  - destruct (Hticks at_select [Some "timeout"%string; Some "busy"%string; None])
      as (s' & frames & Hrun & Hpc & _ & _ & _ & Hlen & _ & Hframes).
    + split; reflexivity.
    + reflexivity.
    + discriminate.
    + exists s', frames. repeat (split; [assumption |]). exact Hframes.
Defined.

(** * Further properties of the driver *)

(** ** State names *)

(** X1: the seven flying states have seven different names, none of them
    ["unknown"], and every other value is named ["unknown"]. *)
Theorem FlyingState_names (a b : Z) :
  (FlyingState a = "unknown"%string ↔ a < 0 ∨ 6 < a)
  ∧ (FlyingState a = FlyingState b → a = b ∨ ((a < 0 ∨ 6 < a) ∧ (b < 0 ∨ 6 < b))).
Proof.
  assert (Hcases : ∀ x, (x < 0 ∨ 6 < x) ∧ FlyingState x = "unknown"%string
                        ∨ x = 0 ∨ x = 1 ∨ x = 2 ∨ x = 3 ∨ x = 4 ∨ x = 5 ∨ x = 6).
  { intros x. unfold FlyingState, FlyingStateLanded, FlyingStateTakeoff,
      FlyingStateHovering, FlyingStateFlying, FlyingStateLanding,
      FlyingStateEmergency, FlyingStateRolling.
    destruct (Z.eqb_spec x 0); [lia |].
    destruct (Z.eqb_spec x 1); [lia |].
    destruct (Z.eqb_spec x 2); [lia |].
    destruct (Z.eqb_spec x 3); [lia |].
    destruct (Z.eqb_spec x 4); [lia |].
    destruct (Z.eqb_spec x 5); [lia |].
    destruct (Z.eqb_spec x 6); [lia |].
    left. split; [lia | reflexivity]. }
  split.
  - split.
    + intros Hu.
      destruct (Hcases a) as [[Hr _] | [-> | [-> | [-> | [-> | [-> | [-> | ->]]]]]]];
        [exact Hr | discriminate Hu ..].
    + intros Hr.
      destruct (Hcases a) as [[_ Hu] | Hin]; [exact Hu | lia].
  - intros Heq.
    destruct (Hcases a) as [[Ha Hua] | Ha]; destruct (Hcases b) as [[Hb Hub] | Hb].
    + right. split; assumption.
    + exfalso. rewrite Hua in Heq.
      destruct Hb as [-> | [-> | [-> | [-> | [-> | [-> | ->]]]]]]; discriminate Heq.
    + exfalso. rewrite Hub in Heq.
      destruct Ha as [-> | [-> | [-> | [-> | [-> | [-> | ->]]]]]]; discriminate Heq.
    + left.
      destruct Ha as [-> | [-> | [-> | [-> | [-> | [-> | ->]]]]]];
        destruct Hb as [-> | [-> | [-> | [-> | [-> | [-> | ->]]]]]];
        solve [reflexivity | discriminate Heq].
Qed.

Lemma FlyingState_names_witness : FlyingState 7 = "unknown"%string.
Proof. apply (proj1 (FlyingState_names 7 0)). right. lia. Defined.

(** ** Status decoder, the other branches *)

Lemma lookup_4_of_length (data : list Z) :
  ¬ (length data < 5)%nat → ∃ st, data !! 4%nat = Some st.
Proof.
  intros Hlen. destruct (lookup_lt_is_Some_2 data 4) as [st Hst]; [lia |].
  exists st. exact Hst.
Qed.

Lemma short_flying_frame_None (m : Minidrone) (data : list Z) :
  (5 ≤ length data < 7)%nat →
  data !! 4%nat = Some PilotingStateFlyingStateChanged →
  processFlightStatus m data = None.
Proof.
  intros Hlen H4. unfold processFlightStatus, index.
  destruct (decide (length data < 5)%nat) as [Hlt | _]; [lia |].
  rewrite H4. cbn [mbind option_bind].
  change (PilotingStateFlyingStateChanged =? PilotingStateFlatTrimChanged) with false.
  change (PilotingStateFlyingStateChanged =? PilotingStateFlyingStateChanged) with true.
  cbn iota. rewrite (lookup_ge_None_2 data 6) by lia. reflexivity.
Qed.

Lemma None_only_short_flying_frame (m : Minidrone) (data : list Z) :
  processFlightStatus m data = None →
  (5 ≤ length data < 7)%nat
  ∧ data !! 4%nat = Some PilotingStateFlyingStateChanged.
Proof.
  unfold processFlightStatus, index.
  destruct (decide (length data < 5)%nat) as [Hlt | Hge]; [discriminate |].
  destruct (lookup_4_of_length data Hge) as [st Hst]. rewrite Hst.
  cbn [mbind option_bind].
  destruct (Z.eqb_spec st PilotingStateFlatTrimChanged); [discriminate |].
  destruct (Z.eqb_spec st PilotingStateFlyingStateChanged) as [-> | ?];
    [| discriminate].
  destruct (data !! 6%nat) as [sub |] eqn:H6; [discriminate |].
  intros _. apply lookup_ge_None_1 in H6. split; [lia | reflexivity].
Qed.

(** X2: the decoder aborts on exactly one kind of input: a notification of
    5 or 6 bytes whose byte 4 is [FlyingStateChanged].  Every other input,
    of any length and content, is decoded or ignored. *)
Theorem processFlightStatus_aborts_iff (m : Minidrone) (data : list Z) :
  processFlightStatus m data = None
  ↔ (5 ≤ length data < 7)%nat
    ∧ data !! 4%nat = Some PilotingStateFlyingStateChanged.
Proof.
  split.
  - apply None_only_short_flying_frame.
  - intros [Hlen H4]. apply short_flying_frame_None; assumption.
Qed.

Lemma processFlightStatus_aborts_iff_witness :
  processFlightStatus NewMinidrone [0; 0; 0; 0; 1; 0] = None
  ∧ processFlightStatus NewMinidrone [0; 0; 0; 0; 1; 0; 9] ≠ None.
Proof.
  split.
  - apply processFlightStatus_aborts_iff. split; [simpl; lia | reflexivity].
  - intros H. apply processFlightStatus_aborts_iff in H.
    destruct H as [Hlen _]. simpl in Hlen. lia.
Defined.


Lemma flying_after_decides (flying : bool) (substate : Z) :
  flying_after flying substate = default flying (decides substate).
Proof.
  unfold flying_after, decides.
  destruct (substate =? FlyingStateLanded); [destruct flying; reflexivity |].
  destruct (substate =? FlyingStateTakeoff) eqn:E1.
  { apply Z.eqb_eq in E1. subst. reflexivity. }
  destruct (substate =? FlyingStateHovering); [destruct flying; reflexivity |].
  destruct (substate =? FlyingStateFlying); [destruct flying; reflexivity |].
  cbn [orb default].
  destruct (substate =? FlyingStateLanding); [reflexivity |].
  destruct (substate =? FlyingStateEmergency); [reflexivity |].
  destruct (substate =? FlyingStateRolling); reflexivity.
Qed.

Lemma processFlightStatus_keeps (m m' : Minidrone) (data : list Z) (events : list event) :
  processFlightStatus m data = Some (m', events) → m' = set_Flying m (Flying m').
Proof.
  unfold processFlightStatus, index.
  destruct (decide (length data < 5)%nat) as [Hlt | Hge].
  { intros [= <- <-]. rewrite set_Flying_same. reflexivity. }
  destruct (data !! 4%nat) as [st |]; [| discriminate].
  cbn [mbind option_bind].
  destruct (st =? PilotingStateFlatTrimChanged).
  { intros [= <- <-]. rewrite set_Flying_same. reflexivity. }
  destruct (st =? PilotingStateFlyingStateChanged).
  - destruct (data !! 6%nat) as [sub |]; [| discriminate].
    cbn [mbind option_bind]. intros [= <- <-]. reflexivity.
  - intros [= <- <-]. rewrite set_Flying_same. reflexivity.
Qed.

(** X3: whatever the notification, the decoder changes nothing of the
    driver but the [Flying] flag, calls the observer at most once and only
    if one is registered, and produces no other event. *)
Theorem processFlightStatus_touches_only_Flying
    (m m' : Minidrone) (data : list Z) (events : list event) :
  processFlightStatus m data = Some (m', events) →
  m' = set_Flying m (Flying m')
  ∧ (events = [] ∨ ∃ state substate,
       events = [Handler state substate]
       ∧ data !! 4%nat = Some state ∧ pilotingStateHandler m = true)
  ∧ (pilotingStateHandler m = false → events = []).
Proof.
  unfold processFlightStatus, index, call_handler.
  destruct (decide (length data < 5)%nat) as [Hlt | Hge].
  { intros [= <- <-]. rewrite set_Flying_same. auto. }
  destruct (lookup_4_of_length data Hge) as [st Hst]. rewrite Hst.
  cbn [mbind option_bind].
  assert (Hev : ∀ sub,
    ((if pilotingStateHandler m then [Handler st sub] else []) = [] ∨
     ∃ state substate,
       (if pilotingStateHandler m then [Handler st sub] else [])
         = [Handler state substate]
       ∧ Some st = Some state ∧ pilotingStateHandler m = true)
    ∧ (pilotingStateHandler m = false →
       (if pilotingStateHandler m then [Handler st sub] else []) = [])).
  { intros sub. destruct (pilotingStateHandler m).
    - split; [right; exists st, sub; auto | discriminate].
    - split; [left |]; reflexivity. }
  destruct (st =? PilotingStateFlatTrimChanged).
  { intros [= <- <-]. rewrite set_Flying_same. split; [reflexivity | apply Hev]. }
  destruct (st =? PilotingStateFlyingStateChanged).
  - destruct (data !! 6%nat) as [sub |]; [| discriminate].
    cbn [mbind option_bind]. intros [= <- <-].
    cbn [Flying set_Flying pilotingStateHandler].
    split; [reflexivity | apply Hev].
  - intros [= <- <-]. rewrite set_Flying_same. auto.
Qed.

Lemma processFlightStatus_touches_only_Flying_witness :
  ∃ m', processFlightStatus (Up (PilotingStateChange NewMinidrone) 30)
          [0; 0; 0; 0; 1; 0; 3] = Some (m', [Handler 1 3])
        ∧ m' = set_Flying (Up (PilotingStateChange NewMinidrone) 30) (Flying m').
Proof.
  eexists. split; [reflexivity |].
  eapply (processFlightStatus_touches_only_Flying
            (Up (PilotingStateChange NewMinidrone) 30) _ [0; 0; 0; 0; 1; 0; 3]).
  reflexivity.
Defined.

(** X4: a notification of at least 5 bytes whose category (byte 4) is not
    [FlyingStateChanged] never aborts and never changes the driver: for
    [FlatTrimChanged] a registered observer is called once with (0, 0),
    bytes 5 and beyond being neither needed nor read; any other category is
    dropped without a call. *)
Theorem other_categories_leave_state (m : Minidrone) (data : list Z) (state : Z) :
  data !! 4%nat = Some state →
  state ≠ PilotingStateFlyingStateChanged →
  processFlightStatus m data =
    Some (m, if (state =? PilotingStateFlatTrimChanged) && pilotingStateHandler m
             then [Handler PilotingStateFlatTrimChanged 0] else []).
Proof.
  intros H4 Hne. unfold processFlightStatus, index, call_handler.
  destruct (decide (length data < 5)%nat) as [Hlt | _].
  { apply lookup_lt_Some in H4. lia. }
  rewrite H4. cbn [mbind option_bind].
  destruct (Z.eqb_spec state PilotingStateFlatTrimChanged) as [-> | _].
  { destruct (pilotingStateHandler m); reflexivity. }
  destruct (Z.eqb_spec state PilotingStateFlyingStateChanged) as [-> | _];
    [contradiction | reflexivity].
Qed.

Lemma other_categories_leave_state_witness :
  processFlightStatus (PilotingStateChange NewMinidrone) [2; 4; 2; 3; 0]
  = Some (PilotingStateChange NewMinidrone, [Handler 0 0]).
Proof.
  assert (Hne : 0 ≠ PilotingStateFlyingStateChanged) by discriminate.
  exact (other_categories_leave_state (PilotingStateChange NewMinidrone)
           [2; 4; 2; 3; 0] 0 eq_refl Hne).
Defined.

Lemma set_Flying_twice (m : Minidrone) (a b : bool) :
  set_Flying (set_Flying m a) b = set_Flying m b.
Proof. reflexivity. Qed.

Lemma default_last_cons (b : bool) (o : option bool) (l : list bool) :
  default (default b o) (last l) =
  default b (last (match o with Some v => v :: l | None => l end)).
Proof.
  destruct o as [v |]; [| reflexivity].
  rewrite last_cons. destruct (last l); reflexivity.
Qed.

(** X5: a run of well-formed [FlyingStateChanged] notifications never
    aborts; afterwards [Flying] is what the last Landed, Hovering or Flying
    notification of the run said, or what it was before if there was none;
    the rest of the driver is untouched, and a registered observer has been
    called once per notification, in order. *)
Theorem deliver_last_decision_wins
    (m : Minidrone) (frames : list (list Z)) (substates : list Z) :
  Forall2 FlyingStateChanged frames substates →
  deliver m frames =
    Some (set_Flying m (default (Flying m) (last (omap decides substates))),
          if pilotingStateHandler m
          then Handler PilotingStateFlyingStateChanged <$> substates else []).
Proof.
  intros Hall. revert m.
  induction Hall as [| data sub frames subs Hfs _ IH]; intros m.
  - cbn. rewrite set_Flying_same. destruct (pilotingStateHandler m); reflexivity.
  - cbn [deliver].
    rewrite (processFlightStatus_flying_state m data sub Hfs).
    cbn [mbind option_bind fst snd]. rewrite IH.
    cbn [mbind option_bind fst snd Flying set_Flying pilotingStateHandler].
    rewrite set_Flying_twice, flying_after_decides.
    rewrite default_last_cons.
    destruct (pilotingStateHandler m); reflexivity.
Qed.

Lemma deliver_last_decision_wins_witness :
  deliver (PilotingStateChange NewMinidrone)
    [[0; 0; 0; 0; 1; 0; 1]; [0; 0; 0; 0; 1; 0; 2]; [0; 0; 0; 0; 1; 0; 4];
     [0; 0; 0; 0; 1; 0; 0]; [0; 0; 0; 0; 1; 0; 6]]
  = Some (PilotingStateChange NewMinidrone,
          [Handler 1 1; Handler 1 2; Handler 1 4; Handler 1 0; Handler 1 6]).
Proof.
  apply (deliver_last_decision_wins (PilotingStateChange NewMinidrone) _ [1; 2; 4; 0; 6]).
  repeat constructor.
Defined.

(** X6: a stream of notifications aborts exactly when one of its frames is
    a [FlyingStateChanged] notification of 5 or 6 bytes, whatever the state
    of the driver and whatever the other frames are. *)
Theorem deliver_aborts_iff (m : Minidrone) (frames : list (list Z)) :
  deliver m frames = None
  ↔ Exists (λ data, (5 ≤ length data < 7)%nat
                    ∧ data !! 4%nat = Some PilotingStateFlyingStateChanged) frames.
Proof.
  revert m. induction frames as [| data rest IH]; intros m.
  - cbn. split; [discriminate | intros H; inversion H].
  - cbn [deliver]. rewrite Exists_cons.
    destruct (processFlightStatus m data) as [[m1 e1] |] eqn:Hd.
    + cbn [mbind option_bind fst snd]. rewrite <- (IH m1).
      destruct (deliver m1 rest) as [[m2 e2] |]; cbn [mbind option_bind].
      * split; [discriminate |]. intros [[Hlen H4] | H]; [| discriminate H].
        rewrite (short_flying_frame_None m data Hlen H4) in Hd. discriminate Hd.
      * split; auto.
    + cbn [mbind option_bind]. split; [| reflexivity].
      intros _. left. exact (None_only_short_flying_frame m data Hd).
Qed.

Lemma deliver_aborts_iff_witness :
  deliver NewMinidrone [[0; 0; 0; 0; 1; 0; 2]; [0; 0; 0; 0; 1]; [0; 0; 0; 0; 1; 0; 0]]
  = None.
Proof.
  apply deliver_aborts_iff. right. left. split; [simpl; lia | reflexivity].
Defined.

(** ** Little-endian words *)

Lemma testbit_byte_at (v k n : Z) :
  0 ≤ k → 0 ≤ n →
  Z.testbit (Z.shiftl (byte (Z.shiftr v k)) k) n
  = (k <=? n) && (n <? k + 8) && Z.testbit v n.
Proof.
  intros Hk Hn. rewrite Z.shiftl_spec by lia.
  destruct (Z.leb_spec k n) as [Hle | Hlt].
  - unfold byte. change 256 with (2 ^ 8).
    rewrite Z.testbit_mod_pow2 by lia.
    rewrite Z.shiftr_spec by lia.
    replace (n - k + k) with n by lia.
    destruct (Z.ltb_spec (n - k) 8), (Z.ltb_spec n (k + 8)); try lia; reflexivity.
  - rewrite Z.testbit_neg_r by lia. reflexivity.
Qed.

Lemma le_bytes_compose (v : Z) :
  0 ≤ v < 4294967296 →
  Z.lor (byte v)
    (Z.lor (Z.shiftl (byte (Z.shiftr v 8)) 8)
       (Z.lor (Z.shiftl (byte (Z.shiftr v 16)) 16)
              (Z.shiftl (byte (Z.shiftr v 24)) 24))) = v.
Proof.
  intros Hv.
  assert (Hhigh : ∀ n, 32 ≤ n → Z.testbit v n = false).
  { intros n Hn. rewrite <- (Z.mod_small v (2 ^ 32)) by lia.
    rewrite Z.testbit_mod_pow2 by lia.
    destruct (Z.ltb_spec n 32); [lia | reflexivity]. }
  apply Z.bits_inj'. intros n Hn.
  rewrite !Z.lor_spec.
  change (byte v) with (Z.shiftl (byte (Z.shiftr v 0)) 0).
  rewrite !testbit_byte_at by lia.
  destruct (Z.le_gt_cases 32 n) as [H32 | H32].
  { rewrite (Hhigh n H32). rewrite !andb_false_r. reflexivity. }
  destruct (Z.testbit v n); rewrite ?andb_false_r, ?andb_true_r; [| reflexivity].
  destruct (Z.leb_spec 0 n), (Z.ltb_spec n (0 + 8)), (Z.leb_spec 8 n),
    (Z.ltb_spec n (8 + 8)), (Z.leb_spec 16 n), (Z.ltb_spec n (16 + 8)),
    (Z.leb_spec 24 n), (Z.ltb_spec n (24 + 8)); try lia; reflexivity.
Qed.

Lemma PutUint32_then_Uint32 (b : list Z) (off : nat) (v : Z) :
  0 ≤ v < 4294967296 → (off + 3 < length b)%nat →
  ∃ b', PutUint32 b off v = Some b'
    ∧ Uint32 b' off = Some v
    ∧ length b' = length b
    ∧ ∀ i, (i < off ∨ off + 3 < i)%nat → b' !! i = b !! i.
Proof.
  intros Hv Hroom.
  destruct (PutUint32_Some b off v Hroom) as (b' & Hput & Hlen & H0 & H1 & H2 & H3).
  exists b'. split; [exact Hput |].
  split; [| split; [exact Hlen |]].
  - unfold Uint32. rewrite H0, H1, H2, H3. cbn [mbind option_bind].
    f_equal. apply le_bytes_compose, Hv.
  - intros i Hi. unfold PutUint32 in Hput.
    rewrite decide_True in Hput by exact Hroom.
    injection Hput as <-.
    rewrite !list_lookup_insert_ne by lia. reflexivity.
Qed.

(** X7: [PutUint32] followed by [Uint32] at the same offset returns the
    word, for every word below 2^32 and every offset that leaves room for
    four bytes; the store keeps the length and touches no other byte.  With
    less room it aborts. *)
Theorem PutUint32_Uint32_roundtrip (b : list Z) (off : nat) (v : Z) :
  0 ≤ v < 4294967296 →
  if decide (off + 3 < length b)%nat then
    ∃ b', PutUint32 b off v = Some b'
      ∧ Uint32 b' off = Some v
      ∧ length b' = length b
      ∧ ∀ i, (i < off ∨ off + 3 < i)%nat → b' !! i = b !! i
  else PutUint32 b off v = None.
Proof.
  intros Hv. destruct (decide (off + 3 < length b)%nat) as [Hroom | Hnone].
  - apply PutUint32_then_Uint32; assumption.
  - unfold PutUint32. rewrite decide_False by exact Hnone. reflexivity.
Qed.

Lemma PutUint32_Uint32_roundtrip_witness :
  ∃ b', PutUint32 (replicate 255 0) 11 1065353216 = Some b'
        ∧ Uint32 b' 11 = Some 1065353216.
Proof.
  pose proof (PutUint32_Uint32_roundtrip (replicate 255 0) 11 1065353216
                ltac:(lia)) as H.
  destruct (decide (11 + 3 < length (replicate 255 0))%nat) as [_ | Hn].
  - destruct H as (b' & Hput & Hget & _). exists b'. split; assumption.
  - exfalso. apply Hn. vm_compute. lia.
Defined.

(** ** The piloting frame, in general *)

Lemma generatePcmd_inv (m m' : Minidrone) :
  generatePcmd m = Some m' →
  pcmd m' = pcmd m ∧ stepsfa0b m' = stepsfa0b m ∧ Flying m' = Flying m
  ∧ pilotingStateHandler m' = pilotingStateHandler m
  ∧ stepsfa0a m' = uint16_incr (stepsfa0a m)
  ∧ PutUint32 (buf m) 11 (Float32bits (Psi (pcmd m))) = Some (buf m').
Proof.
  unfold generatePcmd. intros H.
  repeat match type of H with
         | (?x ≫= _) = Some _ =>
             destruct x eqn:?; cbn [mbind option_bind] in H; [| discriminate H]
         end.
  injection H as <-. cbn. repeat split; reflexivity.
Qed.

Lemma Uint32_of_heading_bytes (l l' : list Z) :
  take 4 (drop 11 l) = take 4 (drop 11 l') → Uint32 l 11 = Uint32 l' 11.
Proof.
  intros Heq.
  assert (Hi : ∀ i, (i < 4)%nat → l !! (11 + i)%nat = l' !! (11 + i)%nat).
  { intros i Hi. rewrite <- !lookup_drop.
    rewrite <- (lookup_take_lt (drop 11 l) 4 i) by exact Hi.
    rewrite <- (lookup_take_lt (drop 11 l') 4 i) by exact Hi.
    rewrite Heq. reflexivity. }
  pose proof (Hi 0%nat ltac:(lia)) as H0.
  pose proof (Hi 1%nat ltac:(lia)) as H1.
  pose proof (Hi 2%nat ltac:(lia)) as H2.
  pose proof (Hi 3%nat ltac:(lia)) as H3.
  unfold Uint32. cbn [Nat.add] in *.
  rewrite H0, H1, H2, H3. reflexivity.
Qed.

Lemma generatePcmd_heading_bytes (m m' : Minidrone) :
  buffers_ok m → generatePcmd m = Some m' →
  take 4 (drop 11 (pcmddata m')) = take 4 (drop 11 (pcmddata m)).
Proof.
  intros Hok Hgen.
  destruct (generatePcmd_frame m Hok) as (m1 & Hgen1 & Hdata & _).
  rewrite Hgen in Hgen1. injection Hgen1 as <-.
  rewrite Hdata. destruct Hok as [Hd _].
  destruct (pcmddata m) as [|x0 [|x1 [|x2 [|x3 [|x4 [|x5 [|x6 [|x7 [|x8 [|x9
    [|x10 [|x11 [|x12 [|x13 [|x14 [|x15 [|x16 [|x17 [|x18 [|x19 l]]]]]]]]]]]]]]]]]]]];
    try discriminate Hd.
  reflexivity.
Qed.

(** X8: for every heading, a tick stores the little-endian encoding of the
    heading in bytes 11..14 of the scratch buffer [buf], from where it can
    be read back, and leaves bytes 11..14 of the frame buffer exactly as
    they were before the tick. *)
Theorem heading_goes_to_scratch_buffer (m : Minidrone) :
  buffers_ok m →
  0 ≤ Float32bits (Psi (pcmd m)) < 4294967296 →
  ∃ m', generatePcmd m = Some m'
    ∧ Float32frombits <$> Uint32 (buf m') 11 = Some (Psi (pcmd m))
    ∧ take 4 (drop 11 (pcmddata m')) = take 4 (drop 11 (pcmddata m))
    ∧ frame_heading (pcmddata m') = frame_heading (pcmddata m)
    ∧ (∀ i, (i < 11 ∨ 14 < i)%nat → buf m' !! i = buf m !! i).
Proof.
  intros Hok Hbits.
  destruct (generatePcmd_frame m Hok) as (m' & Hgen & _).
  exists m'. split; [exact Hgen |].
  destruct (generatePcmd_inv m m' Hgen) as (_ & _ & _ & _ & _ & Hput).
  destruct Hok as [Hd Hb].
  destruct (PutUint32_then_Uint32 (buf m) 11 _ Hbits ltac:(lia))
    as (b' & Hput' & Hget & _ & Hother).
  rewrite Hput in Hput'. injection Hput' as <-.
  assert (Hbytes := generatePcmd_heading_bytes m m' (conj Hd Hb) Hgen).
  split; [rewrite Hget; destruct (Psi (pcmd m)); reflexivity |].
  split; [exact Hbytes |].
  split; [unfold frame_heading; rewrite (Uint32_of_heading_bytes _ _ Hbytes); reflexivity |].
  intros i Hi. apply Hother. lia.
Qed.

Lemma heading_goes_to_scratch_buffer_witness :
  ∃ m', generatePcmd (set_pcmd NewMinidrone
                        {| Flag := 0; Roll := 0; Pitch := 0; Yaw := 0; Gaz := 0;
                           Psi := float32_one |}) = Some m'
        ∧ Float32frombits <$> Uint32 (buf m') 11 = Some float32_one
        ∧ frame_heading (pcmddata m') = Some float32_zero.
Proof.
  destruct (heading_goes_to_scratch_buffer
              (set_pcmd NewMinidrone
                 {| Flag := 0; Roll := 0; Pitch := 0; Yaw := 0; Gaz := 0;
                    Psi := float32_one |}))
    as (m' & Hgen & Hbuf & _ & Hframe & _).
  - split; reflexivity.
  - cbn. lia.
  - exists m'. split; [exact Hgen |]. split; [exact Hbuf | exact Hframe].
Defined.

(** X9: in any number of ticks, every frame carries in bytes 11..14 what
    the frame buffer held there before the first tick, whatever the heading
    is; with the buffer as [NewMinidrone] allocates it, every frame reads
    back a heading of +0. *)
Theorem ticks_keep_heading_bytes (n : nat) (m : Minidrone) :
  buffers_ok m →
  ∃ m' frames, pcmd_ticks n m = Some (m', frames)
    ∧ length frames = n
    ∧ Forall (λ f, take 4 (drop 11 f) = take 4 (drop 11 (pcmddata m))) frames
    ∧ (pcmddata m = replicate 19 0 →
       Forall (λ f, frame_heading f = Some float32_zero) frames).
Proof.
  revert m. induction n as [| n IH]; intros m Hok.
  - exists m, []. repeat split; constructor.
  - destruct (generatePcmd_frame m Hok)
      as (m1 & Hgen & _ & _ & _ & _ & _ & _ & Hok1).
    pose proof (generatePcmd_heading_bytes m m1 Hok Hgen) as Hbytes.
    destruct (IH m1 Hok1) as (m' & frames & Hrun & Hlen & Hall & _).
    exists m', (pcmddata m1 :: frames).
    cbn [pcmd_ticks]. rewrite Hgen. cbn [mbind option_bind].
    rewrite Hrun. cbn [mbind option_bind fst snd].
    split; [reflexivity |].
    split; [cbn; rewrite Hlen; reflexivity |].
    assert (Hall' : Forall (λ f, take 4 (drop 11 f) = take 4 (drop 11 (pcmddata m)))
                      (pcmddata m1 :: frames)).
    { constructor; [exact Hbytes |].
      eapply Forall_impl; [exact Hall |].
      intros f Hf. cbn beta in Hf. rewrite Hf. exact Hbytes. }
    split; [exact Hall' |].
    intros Hzero. eapply Forall_impl; [exact Hall' |].
    intros f Hf. cbn beta in Hf. unfold frame_heading.
    rewrite (Uint32_of_heading_bytes f (replicate 19 0)); [reflexivity |].
    rewrite Hf, Hzero. reflexivity.
Qed.

Lemma ticks_keep_heading_bytes_witness :
  ∃ m' frames,
    pcmd_ticks 2 (set_pcmd NewMinidrone
                    {| Flag := 1; Roll := 0; Pitch := 0; Yaw := 0; Gaz := 0;
                       Psi := float32_one |}) = Some (m', frames)
    ∧ Forall (λ f, frame_heading f = Some float32_zero) frames.
Proof.
  destruct (ticks_keep_heading_bytes 2
              (set_pcmd NewMinidrone
                 {| Flag := 1; Roll := 0; Pitch := 0; Yaw := 0; Gaz := 0;
                    Psi := float32_one |}))
    as (m' & frames & Hrun & _ & _ & Hzero).
  - split; reflexivity.
  - exists m', frames. split; [exact Hrun |]. apply Hzero. reflexivity.
Defined.

(** ** Axes as signed bytes *)

Lemma int8_byte (x : Z) : -128 ≤ x ≤ 127 → int8 (byte x) = x.
Proof.
  intros Hx. unfold int8, byte.
  destruct (Z.neg_nonneg_cases x) as [Hneg | Hpos].
  - replace (x mod 256) with (x + 256).
    + destruct (Z.ltb_spec (x + 256) 128); lia.
    + apply (Z.mod_unique_pos _ _ (-1)); lia.
  - rewrite Z.mod_small by lia. destruct (Z.ltb_spec x 128); lia.
Qed.

Lemma move_axes_in_range (mv : motion) (m : Minidrone) :
  axes_in_range (pcmd m) → axes_in_range (pcmd (move mv m)).
Proof.
  intros (Hf & Hr & Hp & Hy & Hg).
  destruct mv as [v | v | v | v | v | v | v | v |]; cbn;
    try pose proof (validatePitch_range v);
    unfold axes_in_range; cbn; repeat split; auto; lia.
Qed.

Lemma perform_axes_in_range (op : operation) (m : Minidrone) :
  axes_in_range (pcmd m) → axes_in_range (pcmd (perform op m)).
Proof.
  destruct op as [c | mv]; intros Hin; cbn [perform].
  - rewrite encode_keeps_pcmd. exact Hin.
  - apply move_axes_in_range, Hin.
Qed.

Lemma reachable_axes_in_range (s0 s : session) :
  axes_in_range (pcmd (drone s0)) → reachable s0 s →
  axes_in_range (pcmd (drone s)).
Proof.
  intros Hin Hreach.
  induction Hreach as [| s c s' _ IH Hstep]; [exact Hin |].
  destruct c as [ok | ok]; cbn [step] in Hstep.
  - unfold step_loop in Hstep.
    destruct (loop s); try discriminate;
      try (injection Hstep as <-; exact IH).
    + destruct (caller s); injection Hstep as <-; exact IH.
    + destruct (generatePcmd (drone s)) as [m1 |] eqn:Hg; [| discriminate].
      injection Hstep as <-. cbn [drone].
      destruct (generatePcmd_inv _ _ Hg) as (-> & _). exact IH.
  - unfold step_caller in Hstep.
    destruct (caller s); [| discriminate |].
    + destruct (calls s) as [| [[c | mv] |] rest]; [discriminate | | |];
        injection Hstep as <-; cbn [drone].
      * exact (perform_axes_in_range (Discrete c) _ IH).
      * exact (perform_axes_in_range (Motion mv) _ IH).
      * exact IH.
    + injection Hstep as <-. exact IH.
Qed.

(** X10: the directional commands, [Hover], the discrete commands, the
    ticks and the decoder all keep the motion vector within the protocol's
    range: flag 0 or 1 and every axis in [-100,100], whatever magnitudes
    the callers pass; so does every run of a session.  The vector of
    [NewMinidrone] is in range. *)
Theorem axes_stay_in_range :
  axes_in_range (pcmd NewMinidrone)
  ∧ (∀ op m, axes_in_range (pcmd m) → axes_in_range (pcmd (perform op m)))
  ∧ (∀ m m', axes_in_range (pcmd m) → generatePcmd m = Some m' →
             axes_in_range (pcmd m'))
  ∧ (∀ m data m' ev, axes_in_range (pcmd m) →
       processFlightStatus m data = Some (m', ev) → axes_in_range (pcmd m'))
  ∧ (∀ s0 s, axes_in_range (pcmd (drone s0)) → reachable s0 s →
             axes_in_range (pcmd (drone s))).
Proof.
  split; [unfold axes_in_range; cbn; lia |].
  split; [exact perform_axes_in_range |].
  split.
  { intros m m' Hin Hg.
    destruct (generatePcmd_inv m m' Hg) as (-> & _). exact Hin. }
  split; [| exact reachable_axes_in_range].
  intros m data m' ev Hin Hp.
  rewrite (processFlightStatus_keeps m m' data ev Hp). exact Hin.
Qed.

Lemma axes_stay_in_range_witness :
  axes_in_range (pcmd (perform (Motion (MDown 5000)) (Left NewMinidrone (-3)))).
Proof.
  destruct axes_stay_in_range as (Hnew & Hperform & _).
  apply Hperform. apply (Hperform (Motion (MLeft (-3)))). exact Hnew.
Defined.

Lemma generatePcmd_layout (m : Minidrone) :
  buffers_ok m →
  ∃ m' h0 h1 h2 h3, generatePcmd m = Some m'
    ∧ pcmddata m' =
        [2; (stepsfa0a m + 1) mod 256; 2; 0; 2; 0;
         byte (Flag (pcmd m)); byte (Roll (pcmd m)); byte (Pitch (pcmd m));
         byte (Yaw (pcmd m)); byte (Gaz (pcmd m)); h0; h1; h2; h3; 0; 0; 0; 0].
Proof.
  intros Hok.
  destruct (generatePcmd_frame m Hok) as (m' & Hgen & Hdata & _).
  destruct Hok as [Hd _]. revert Hdata.
  destruct (pcmddata m) as [|x0 [|x1 [|x2 [|x3 [|x4 [|x5 [|x6 [|x7 [|x8 [|x9
    [|x10 [|x11 [|x12 [|x13 [|x14 [|x15 [|x16 [|x17 [|x18 [|x19 l]]]]]]]]]]]]]]]]]]]];
    try discriminate Hd.
  intros Hdata.
  exists m', x11, x12, x13, x14. split; [exact Hgen | exact Hdata].
Qed.

Lemma generatePcmd_frame_ok (m m' : Minidrone) :
  buffers_ok m → axes_in_range (pcmd m) → generatePcmd m = Some m' →
  pcmd_frame_ok (pcmddata m').
Proof.
  intros Hok (Hf & Hr & Hp & Hy & Hg) Hgen.
  destruct (generatePcmd_layout m Hok) as (m1 & h0 & h1 & h2 & h3 & Hgen1 & Hdata).
  rewrite Hgen in Hgen1. injection Hgen1 as <-.
  eexists _, _, _, _, _, _, _, _, _, _. split; [exact Hdata |].
  rewrite !int8_byte by lia.
  split; [apply Z.mod_pos_bound; lia |].
  split; [unfold byte; rewrite Z.mod_small by lia; exact Hf |].
  repeat split; lia.
Qed.

(** X11: when the motion vector is in range, the frame of a tick carries
    the flag in byte 6 and the four axes in bytes 7..10 in such a way that
    reading each byte as a signed 8-bit integer gives back roll, pitch, yaw
    and gaz, negative values included. *)
Theorem axes_survive_the_frame (m : Minidrone) :
  buffers_ok m → axes_in_range (pcmd m) →
  ∃ m', generatePcmd m = Some m'
    ∧ pcmddata m' !! 6%nat = Some (Flag (pcmd m))
    ∧ int8 <$> take 4 (drop 7 (pcmddata m'))
      = [Roll (pcmd m); Pitch (pcmd m); Yaw (pcmd m); Gaz (pcmd m)].
Proof.
  intros Hok (Hf & Hr & Hp & Hy & Hg).
  destruct (generatePcmd_layout m Hok) as (m' & h0 & h1 & h2 & h3 & Hgen & Hdata).
  exists m'. split; [exact Hgen |].
  rewrite Hdata.
  cbn [take drop lookup list_lookup fmap list_fmap].
  split.
  - unfold byte. rewrite Z.mod_small by lia. reflexivity.
  - rewrite !int8_byte by lia. reflexivity.
Qed.

Lemma axes_survive_the_frame_witness :
  ∃ m', generatePcmd (Down (Left NewMinidrone 30) 250) = Some m'
        ∧ int8 <$> take 4 (drop 7 (pcmddata m')) = [-30; 0; 0; -100].
Proof.
  destruct (axes_survive_the_frame (Down (Left NewMinidrone 30) 250))
    as (m' & Hgen & _ & Haxes).
  - split; reflexivity.
  - unfold axes_in_range. cbn. lia.
  - exists m'. split; [exact Hgen | exact Haxes].
Defined.

(** ** Motion commands, composed *)

(** X12: two directional commands on different axes commute; of two
    commands on the same axis the later one wins; and [Hover] wins over
    whatever came before it. *)
Theorem motion_commands_compose (mv1 mv2 : motion) (m : Minidrone) :
  (axis_of mv1 ≠ None → axis_of mv2 ≠ None → axis_of mv1 ≠ axis_of mv2 →
   move mv2 (move mv1 m) = move mv1 (move mv2 m))
  ∧ (axis_of mv1 = axis_of mv2 → move mv2 (move mv1 m) = move mv2 m)
  ∧ move MHover (move mv1 m) = move MHover m.
Proof.
  split; [| split].
  - destruct mv1, mv2; cbn; intros H1 H2 H12;
      solve [reflexivity | contradiction].
  - destruct mv1, mv2; cbn; intros H12;
      solve [reflexivity | discriminate H12].
  - destruct mv1; reflexivity.
Qed.

Lemma motion_commands_compose_witness :
  move (MUp 40) (move (MLeft 10) NewMinidrone)
    = move (MLeft 10) (move (MUp 40) NewMinidrone)
  ∧ move (MDown 5) (move (MUp 40) NewMinidrone) = move (MDown 5) NewMinidrone.
Proof.
  split.
  - apply (proj1 (motion_commands_compose (MLeft 10) (MUp 40) NewMinidrone));
      discriminate.
  - apply (proj1 (proj2 (motion_commands_compose (MUp 40) (MDown 5) NewMinidrone))).
    reflexivity.
Defined.

(** X13: [validatePitch] passes every magnitude of [0,100] through
    unchanged, is idempotent, and is monotone: a larger request never gives
    a smaller magnitude. *)
Theorem validatePitch_idempotent_monotone (a b : Z) :
  (0 ≤ a ≤ 100 → validatePitch a = a)
  ∧ validatePitch (validatePitch a) = validatePitch a
  ∧ (a ≤ b → validatePitch a ≤ validatePitch b).
Proof.
  rewrite !validatePitch_clamp. repeat split; lia.
Qed.

Lemma validatePitch_idempotent_monotone_witness :
  validatePitch 37 = 37 ∧ validatePitch (-4) ≤ validatePitch 900.
Proof.
  destruct (validatePitch_idempotent_monotone 37 0) as (Hid & _).
  destruct (validatePitch_idempotent_monotone (-4) 900) as (_ & _ & Hmono).
  split; [apply Hid; lia | apply Hmono; lia].
Defined.

(** ** Transcripts of a session *)


Lemma expected_seqs_snoc (seq0 : Z) (n : nat) :
  expected_seqs seq0 (S n) =
  expected_seqs seq0 n ++ [Some ((seq0 + Z.of_nat (S n)) mod 256)].
Proof.
  unfold expected_seqs. rewrite seq_S, fmap_app. reflexivity.
Qed.

Lemma sequence_extends (x0 x : Z) (fs : list (list Z)) (f : list Z) :
  frame_seq <$> fs = expected_seqs x0 (length fs) →
  x mod 256 = (x0 + Z.of_nat (length fs)) mod 256 →
  frame_seq f = Some ((x + 1) mod 256) →
  frame_seq <$> (fs ++ [f]) = expected_seqs x0 (length (fs ++ [f]))
  ∧ uint16_incr x mod 256 = (x0 + Z.of_nat (length (fs ++ [f]))) mod 256.
Proof.
  intros Hseqs Hx Hf.
  assert (Hnext : (x + 1) mod 256 = (x0 + Z.of_nat (S (length fs))) mod 256).
  { rewrite Z.add_mod, Hx, <- Z.add_mod by lia. f_equal. lia. }
  rewrite length_app. cbn [length]. rewrite Nat.add_1_r.
  split.
  - rewrite fmap_app, expected_seqs_snoc, Hseqs. cbn [fmap list_fmap].
    rewrite Hf, Hnext. reflexivity.
  - pose proof (byte_uint16_incr x) as Hb. unfold byte in Hb.
    rewrite Hb. exact Hnext.
Qed.

Lemma step_in_sequence (a0 b0 : Z) (c : choice) (s s' : session) :
  buffers_ok (drone s) → in_sequence a0 b0 s → step c s = Next s' →
  in_sequence a0 b0 s'.
Proof.
  intros Hok (Hcmd & Hpil & Hb & Ha) Hstep.
  unfold in_sequence.
  assert (Hsame : ∀ d l cl cs,
    stepsfa0a d = stepsfa0a (drone s) → stepsfa0b d = stepsfa0b (drone s) →
    in_sequence a0 b0 {| drone := d; loop := l; caller := cl; calls := cs;
                         trace := trace s |}).
  { intros d l cl cs Hda Hdb. unfold in_sequence. cbn [trace drone].
    rewrite Hda, Hdb. auto. }
  assert (Hcommand : ∀ cmd l cl cs ok,
    in_sequence a0 b0
      {| drone := (encode cmd (drone s)).1; loop := l; caller := cl; calls := cs;
         trace := trace s ++ [Write commandCharacteristic (encode cmd (drone s)).2 ok] |}).
  { intros cmd l cl cs ok. unfold in_sequence. cbn [trace drone].
    destruct (encode_seq cmd (drone s)) as (Hseq & Hb' & Ha').
    rewrite !frames_on_app. cbn [frames_on omap list_omap same_characteristic].
    rewrite app_nil_r, Hb', Ha'.
    destruct (sequence_extends b0 _ _ _ Hcmd Hb Hseq) as [H1 H2].
    auto. }
  destruct c as [ok | ok]; cbn [step] in Hstep.
  - destruct (loop s) eqn:Hpc.
    5: { unfold step_loop in Hstep. rewrite Hpc in Hstep. discriminate. }
    3: { destruct (step_loop_tick s ok Hpc Hok) as (m' & Hgen & _ & Hs).
         cbn [step] in Hs. rewrite Hs in Hstep. injection Hstep as <-.
         destruct (generatePcmd_frame _ Hok) as (m1 & Hgen1 & Hdata & Ha' & Hb' & _).
         rewrite Hgen in Hgen1. injection Hgen1 as <-.
         cbn [trace drone].
         assert (Hseq : frame_seq (pcmddata m') = Some ((stepsfa0a (drone s) + 1) mod 256))
           by (rewrite Hdata; reflexivity).
         destruct (sequence_extends a0 _ _ _ Hpil Ha Hseq) as [H1 H2].
         rewrite !frames_on_app. cbn [frames_on omap list_omap same_characteristic].
         rewrite Ha', Hb'.
         assert (Hnone : ∀ ch, frames_on ch (report ok) = [])
           by (intros ch; destruct ok; reflexivity).
         unfold frames_on in Hnone. rewrite !Hnone, !app_nil_r.
         auto. }
    all: unfold step_loop in Hstep; rewrite Hpc in Hstep.
    2: destruct (caller s).
    all: injection Hstep as <-; apply Hsame; reflexivity.
  - unfold step_caller in Hstep.
    destruct (caller s); [| discriminate |].
    + destruct (calls s) as [| [[cmd | mv] |] rest]; [discriminate | | |];
        injection Hstep as <-.
      * apply Hcommand.
      * apply Hsame; apply move_keeps_counters.
      * apply (Hcommand CmdLand).
    + injection Hstep as <-. apply Hsame; reflexivity.
Qed.

Lemma reachable_in_sequence (a0 b0 : Z) (s0 s : session) :
  buffers_ok (drone s0) → in_sequence a0 b0 s0 → reachable s0 s →
  in_sequence a0 b0 s.
Proof.
  intros Hok H0 Hreach.
  induction Hreach as [| s c s' Hr IH Hstep]; [exact H0 |].
  exact (step_in_sequence a0 b0 c s s' (reachable_buffers_ok s0 s Hok Hr) IH Hstep).
Qed.

(** X14: in a running session, however the scheduler interleaves the loop
    and the caller and whichever writes fail, the frames handed to the
    command characteristic carry consecutive sequence bytes from the command
    counter, and the frames handed to the piloting characteristic carry
    consecutive sequence bytes from the piloting counter. *)
Theorem channels_stay_in_sequence (m : Minidrone) (cs : list call) (s : session) :
  buffers_ok m → reachable (started m cs) s →
  frame_seq <$> frames_on commandCharacteristic (trace s)
    = expected_seqs (stepsfa0b m)
        (length (frames_on commandCharacteristic (trace s)))
  ∧ frame_seq <$> frames_on pcmdCharacteristic (trace s)
    = expected_seqs (stepsfa0a m)
        (length (frames_on pcmdCharacteristic (trace s))).
Proof.
  intros Hok Hreach.
  assert (H0 : in_sequence (stepsfa0a m) (stepsfa0b m) (started m cs)).
  { unfold in_sequence. cbn. rewrite !Z.add_0_r. auto. }
  destruct (reachable_in_sequence _ _ (started m cs) s Hok H0 Hreach)
    as (Hcmd & Hpil & _).
  split; assumption.
Qed.

Lemma channels_stay_in_sequence_witness :
  run short_schedule (started NewMinidrone short_program) = Next finished_short
  ∧ frame_seq <$> frames_on commandCharacteristic (trace finished_short)
    = [Some 1; Some 2]
  ∧ frame_seq <$> frames_on pcmdCharacteristic (trace finished_short)
    = [Some 1].
Proof.
  assert (Hrun : run short_schedule (started NewMinidrone short_program)
                 = Next finished_short) by (vm_compute; reflexivity).
  assert (Hok : buffers_ok NewMinidrone) by (split; reflexivity).
  split; [exact Hrun |].
  exact (channels_stay_in_sequence NewMinidrone short_program finished_short Hok
           (reachable_run _ _ _ short_schedule (reachable_here _) Hrun)).
Defined.


Lemma encode_frame_ext (c : command) (m m' : Minidrone) :
  stepsfa0b m = stepsfa0b m' →
  (encode c m).2 = (encode c m').2
  ∧ stepsfa0b (encode c m).1 = stepsfa0b (encode c m').1.
Proof. intros H. destruct c; cbn; rewrite H; split; reflexivity. Qed.

Lemma encode_all_frames_ext (cs : list command) (m m' : Minidrone) :
  stepsfa0b m = stepsfa0b m' → (encode_all cs m).2 = (encode_all cs m').2.
Proof.
  revert m m'. induction cs as [| c cs IH]; intros m m' H; [reflexivity |].
  destruct (encode_frame_ext c m m' H) as [Hf Hb].
  cbn [encode_all snd]. rewrite Hf, (IH _ _ Hb). reflexivity.
Qed.

Lemma step_pending_frames (c : choice) (s s' : session) :
  step c s = Next s' →
  frames_on commandCharacteristic (trace s') ++ pending_frames s'
  = frames_on commandCharacteristic (trace s) ++ pending_frames s.
Proof.
  intros Hstep. unfold pending_frames.
  destruct c as [ok | ok]; cbn [step] in Hstep.
  - unfold step_loop in Hstep.
    destruct (loop s); try discriminate;
      try (injection Hstep as <-; reflexivity).
    + destruct (caller s); injection Hstep as <-; reflexivity.
    + destruct (generatePcmd (drone s)) as [m1 |] eqn:Hg; [| discriminate].
      injection Hstep as <-. cbn [trace calls drone].
      destruct (generatePcmd_inv _ _ Hg) as (_ & Hb & _).
      rewrite (encode_all_frames_ext _ m1 (drone s) Hb).
      rewrite frames_on_app. cbn [frames_on omap list_omap same_characteristic].
      destruct ok; cbn; rewrite app_nil_r; reflexivity.
  - unfold step_caller in Hstep.
    destruct (caller s); [| discriminate |].
    + destruct (calls s) as [| [[cmd | mv] |] rest]; [discriminate | | |];
        injection Hstep as <-; cbn [trace calls drone commands_of encode_all snd fst].
      * rewrite frames_on_app. cbn [frames_on omap list_omap same_characteristic].
        rewrite <- app_assoc. reflexivity.
      * rewrite (encode_all_frames_ext _ (move mv (drone s)) (drone s));
          [reflexivity | apply move_keeps_counters].
      * rewrite frames_on_app. cbn [frames_on omap list_omap same_characteristic].
        rewrite <- app_assoc. reflexivity.
    + injection Hstep as <-. reflexivity.
Qed.

(** X15: the transcript of the command channel is fixed by the caller's
    program alone: at every moment of every run, the command frames sent so
    far followed by the frames the remaining calls would produce are the
    frames the whole program produces when run by itself ([Halt] counting
    as its [Land]); once the caller has returned, the transcript is exactly
    that list, whatever the scheduler, the loop and the transport did. *)
Theorem command_transcript_is_the_program
    (m : Minidrone) (cs : list call) (s : session) :
  reachable (started m cs) s →
  frames_on commandCharacteristic (trace s) ++ pending_frames s
    = (encode_all (commands_of cs) m).2
  ∧ (finished s →
     frames_on commandCharacteristic (trace s)
       = (encode_all (commands_of cs) m).2).
Proof.
  intros Hreach.
  assert (Hinv : frames_on commandCharacteristic (trace s) ++ pending_frames s
                 = (encode_all (commands_of cs) m).2).
  { induction Hreach as [| s c s' _ IH Hstep]; [reflexivity |].
    rewrite (step_pending_frames c s s' Hstep). exact IH. }
  split; [exact Hinv |].
  intros [_ Hdone]. rewrite <- Hinv. unfold pending_frames.
  rewrite Hdone. cbn. rewrite app_nil_r. reflexivity.
Qed.

Lemma command_transcript_is_the_program_witness :
  run short_schedule (started NewMinidrone short_program) = Next finished_short
  ∧ frames_on commandCharacteristic (trace finished_short)
    = [[2; 1; 2; 0; 1; 0]; [2; 2; 2; 0; 3; 0]].
Proof.
  assert (Hrun : run short_schedule (started NewMinidrone short_program)
                 = Next finished_short) by (vm_compute; reflexivity).
  assert (Hfin : finished finished_short) by (split; reflexivity).
  split; [exact Hrun |].
  exact (proj2 (command_transcript_is_the_program NewMinidrone short_program
                  finished_short
                  (reachable_run _ _ _ short_schedule (reachable_here _) Hrun))
           Hfin).
Defined.

Lemma processFlightStatus_no_frames
    (m m' : Minidrone) (data : list Z) (events : list event) (c : characteristic) :
  processFlightStatus m data = Some (m', events) → frames_on c events = [].
Proof.
  unfold processFlightStatus, index, call_handler.
  destruct (decide (length data < 5)%nat) as [Hlt | Hge].
  { intros [= <- <-]. reflexivity. }
  destruct (data !! 4%nat) as [st |]; [| discriminate].
  cbn [mbind option_bind].
  destruct (st =? PilotingStateFlatTrimChanged).
  { intros [= <- <-]. destruct (pilotingStateHandler m); reflexivity. }
  destruct (st =? PilotingStateFlyingStateChanged).
  - destruct (data !! 6%nat) as [sub |]; [| discriminate].
    cbn [mbind option_bind]. intros [= <- <-].
    cbn [pilotingStateHandler set_Flying].
    destruct (pilotingStateHandler m); reflexivity.
  - intros [= <- <-]. reflexivity.
Qed.

Lemma notified_inv (data : list Z) (s s' : session) :
  notified data s = Next s' →
  loop s' = loop s ∧ caller s' = caller s ∧ calls s' = calls s
  ∧ drone s' = set_Flying (drone s) (Flying (drone s'))
  ∧ ∀ c, frames_on c (trace s') = frames_on c (trace s).
Proof.
  unfold notified.
  destruct (processFlightStatus (drone s) data) as [[m' ev] |] eqn:Hp;
    [| discriminate].
  intros [= <-]. cbn [loop caller calls drone trace fst snd].
  repeat split.
  - exact (processFlightStatus_keeps _ _ _ _ Hp).
  - intros c. rewrite frames_on_app.
    rewrite (processFlightStatus_no_frames _ _ _ _ c Hp), app_nil_r.
    reflexivity.
Qed.

Lemma reachable_notified_happen_all (s0 s s' : session) (hs : list happening) :
  reachable_notified s0 s → happen_all hs s = Next s' →
  reachable_notified s0 s'.
Proof.
  revert s. induction hs as [| h hs IH]; intros s Hreach Hrun;
    cbn [happen_all] in Hrun.
  - injection Hrun as <-. exact Hreach.
  - destruct (happen h s) as [| | s1] eqn:Hh; try discriminate.
    apply (IH s1); [| exact Hrun].
    exact (reachable_notified_step s0 s h s1 Hreach Hh).
Qed.

(** X16: once the loop has returned it stays returned, and from then on
    nothing is handed to the piloting characteristic: whatever operations
    of the command surface and [Halt] calls the caller goes on to make, and
    whatever notifications arrive, the piloting transcript, the piloting
    counter and the frame buffer stay as they were.  (The caller of a
    session makes no second [StartPcmd] or [Start], which would spawn a new
    loop.) *)
Theorem no_piloting_frame_after_return (s s' : session) :
  loop s = LoopReturned → reachable_notified s s' →
  loop s' = LoopReturned
  ∧ frames_on pcmdCharacteristic (trace s') = frames_on pcmdCharacteristic (trace s)
  ∧ stepsfa0a (drone s') = stepsfa0a (drone s)
  ∧ pcmddata (drone s') = pcmddata (drone s).
Proof.
  intros Hret Hreach.
  induction Hreach as [| s1 h s2 _ IH Hstep]; [auto |].
  destruct IH as (Hl & Hf & Ha & Hd).
  destruct h as [[ok | ok] | data]; cbn [happen step] in Hstep.
  - unfold step_loop in Hstep. rewrite Hl in Hstep. discriminate.
  - unfold step_caller in Hstep.
    destruct (caller s1); [| discriminate |].
    + destruct (calls s1) as [| [[cmd | mv] |] rest]; [discriminate | | |];
        injection Hstep as <-; cbn [loop trace drone].
      * rewrite frames_on_app. cbn [frames_on omap list_omap same_characteristic].
        rewrite app_nil_r.
        destruct cmd; auto.
      * destruct mv; auto.
      * rewrite frames_on_app. cbn [frames_on omap list_omap same_characteristic].
        rewrite app_nil_r. auto.
    + injection Hstep as <-. auto.
  - destruct (notified_inv data s1 s2 Hstep) as (Hl' & _ & _ & Hdrone & Hframes).
    rewrite Hl', Hframes, Hdrone. cbn [stepsfa0a pcmddata set_Flying]. auto.
Qed.

Lemma no_piloting_frame_after_return_witness :
  happen_all after_halt_happenings halted_session = Next halted_session_later
  ∧ calls halted_session = [CallOp (Motion (MUp 50)); CallOp (Discrete CmdTakeOff)]
  ∧ calls halted_session_later = []
  ∧ loop halted_session_later = LoopReturned
  ∧ length (frames_on pcmdCharacteristic (trace halted_session)) = 1%nat
  ∧ frames_on pcmdCharacteristic (trace halted_session_later)
    = frames_on pcmdCharacteristic (trace halted_session).
Proof.
  assert (Hrun : happen_all after_halt_happenings halted_session
                 = Next halted_session_later) by (vm_compute; reflexivity).
  destruct (no_piloting_frame_after_return halted_session halted_session_later
              eq_refl
              (reachable_notified_happen_all _ _ _ after_halt_happenings
                 (reachable_notified_here _) Hrun))
    as (Hl & Hf & _).
  split; [exact Hrun |].
  split; [reflexivity |]. split; [reflexivity |].
  split; [exact Hl |]. split; [reflexivity | exact Hf].
Defined.

Lemma step_piloting_frames_ok (c : choice) (s s' : session) :
  buffers_ok (drone s) → axes_in_range (pcmd (drone s)) →
  Forall pcmd_frame_ok (frames_on pcmdCharacteristic (trace s)) →
  step c s = Next s' →
  Forall pcmd_frame_ok (frames_on pcmdCharacteristic (trace s')).
Proof.
  intros Hok Hin Hall Hstep.
  destruct c as [ok | ok]; cbn [step] in Hstep.
  - unfold step_loop in Hstep.
    destruct (loop s); try discriminate;
      try (injection Hstep as <-; exact Hall).
    + destruct (caller s); injection Hstep as <-; exact Hall.
    + destruct (generatePcmd (drone s)) as [m1 |] eqn:Hg; [| discriminate].
      injection Hstep as <-. cbn [trace].
      rewrite frames_on_app. apply Forall_app. split; [exact Hall |].
      cbn [frames_on omap list_omap same_characteristic].
      pose proof (generatePcmd_frame_ok _ _ Hok Hin Hg) as Hframe.
      destruct ok; cbn; repeat constructor; exact Hframe.
  - unfold step_caller in Hstep.
    destruct (caller s); [| discriminate |].
    + destruct (calls s) as [| [[cmd | mv] |] rest]; [discriminate | | |];
        injection Hstep as <-; cbn [trace]; try exact Hall;
        rewrite frames_on_app; cbn [frames_on omap list_omap same_characteristic];
        rewrite app_nil_r; exact Hall.
    + injection Hstep as <-. exact Hall.
Qed.

(** X17: in a session started with the buffers as allocated and the motion
    vector in range, every frame ever handed to the piloting characteristic
    has 19 bytes with the fixed bytes in place, a flag of 0 or 1 and four
    axes that read as signed bytes within [-100,100], whatever magnitudes
    the caller passes and however the run is scheduled. *)
Theorem piloting_frames_well_formed (m : Minidrone) (cs : list call) (s : session) :
  buffers_ok m → axes_in_range (pcmd m) → reachable (started m cs) s →
  Forall pcmd_frame_ok (frames_on pcmdCharacteristic (trace s)).
Proof.
  intros Hok Hin Hreach.
  remember (started m cs) as s0 eqn:Hs0.
  assert (Hok0 : buffers_ok (drone s0)) by (subst s0; exact Hok).
  assert (Hin0 : axes_in_range (pcmd (drone s0))) by (subst s0; exact Hin).
  assert (H0 : Forall pcmd_frame_ok (frames_on pcmdCharacteristic (trace s0)))
    by (subst s0; constructor).
  clear Hs0.
  induction Hreach as [| s c s' Hr IH Hstep]; [exact H0 |].
  apply (step_piloting_frames_ok c s s'); try assumption.
  - exact (reachable_buffers_ok s0 s Hok0 Hr).
  - exact (reachable_axes_in_range s0 s Hin0 Hr).
Qed.

Lemma piloting_frames_well_formed_witness :
  run short_schedule (started NewMinidrone short_program) = Next finished_short
  ∧ Forall pcmd_frame_ok (frames_on pcmdCharacteristic (trace finished_short)).
Proof.
  assert (Hrun : run short_schedule (started NewMinidrone short_program)
                 = Next finished_short) by (vm_compute; reflexivity).
  assert (Hok : buffers_ok NewMinidrone) by (split; reflexivity).
  assert (Hin : axes_in_range (pcmd NewMinidrone))
    by (unfold axes_in_range; cbn; lia).
  split; [exact Hrun |].
  exact (piloting_frames_well_formed NewMinidrone short_program finished_short
           Hok Hin (reachable_run _ _ _ short_schedule (reachable_here _) Hrun)).
Defined.

(** ** Session start *)

Lemma Start_after_discovery (h : handshake) (m : Minidrone) (rest : list call) :
  discovery_complete h →
  Start h m rest =
    match (Init h m).2 with
    | Some err => StartError err (Init h m).1.1 (Init h m).1.2
    | None =>
        StartOk {| drone := (FlatTrim (Init h m).1.1).1; loop := LoopSettle;
                   caller := CallerReady;
                   calls := CallOp (Discrete CmdFlatTrim) :: rest;
                   trace := (Init h m).1.2 ++
                     [Write commandCharacteristic (FlatTrim (Init h m).1.1).2
                        (trim_write h)] |}
    end.
Proof.
  intros ([n1 H1] & [n2 H2] & [n3 H3]). unfold Start.
  rewrite H1, H2, H3. reflexivity.
Qed.

Lemma Start_before_discovery (h : handshake) (m : Minidrone) (rest : list call) :
  ¬ discovery_complete h →
  Start h m rest = StartAbort ∨ ∃ err, Start h m rest = StartError err m [].
Proof.
  intros Hnot. unfold Start.
  destruct (services h) as [e1 | [| [| n1]]] eqn:H1;
    try (left; reflexivity); try (right; eexists; reflexivity).
  destruct (command_characteristics h) as [e2 | [| [| n2]]] eqn:H2;
    try (left; reflexivity); try (right; eexists; reflexivity).
  destruct (notify_characteristics h) as [e3 | [| n3]] eqn:H3;
    try (left; reflexivity); try (right; eexists; reflexivity).
  exfalso. apply Hnot. unfold discovery_complete.
  rewrite H1, H2, H3. repeat split; eexists; reflexivity.
Qed.

Lemma discovery_complete_dec (h : handshake) :
  discovery_complete h ∨ ¬ discovery_complete h.
Proof.
  unfold discovery_complete.
  destruct (services h) as [e1 | [| [| n1]]];
    try (right; intros ([n H] & _); discriminate H).
  destruct (command_characteristics h) as [e2 | [| [| n2]]];
    try (right; intros (_ & [n H] & _); discriminate H).
  destruct (notify_characteristics h) as [e3 | [| n3]];
    try (right; intros (_ & _ & [n H]); discriminate H).
  left. repeat split; eexists; reflexivity.
Qed.

Lemma second_seq_byte (b : Z) :
  seq_byte (uint16_incr (uint16_incr b)) = (b + 2) mod 256.
Proof.
  rewrite seq_byte_uint16_incr, byte_incr_shift. f_equal.
Qed.

(** X18: [Start] succeeds exactly when the transport finds two services,
    two command characteristics and a notification characteristic and
    accepts the settings frame and the subscription.  It has then sent the
    settings frame and one flat trim, with the next two sequence bytes,
    spawned the loop, and left the second flat trim to run beside it; a
    failed write of the flat trim changes nothing of this.  The motion
    vector, the [Flying] flag and the piloting counter are as before. *)
Theorem Start_succeeds_iff (h : handshake) (m : Minidrone) (rest : list call) :
  ((∃ s, Start h m rest = StartOk s) ↔ handshake_ok h)
  ∧ (handshake_ok h →
     ∃ s, Start h m rest = StartOk s
       ∧ loop s = LoopSettle ∧ caller s = CallerReady
       ∧ calls s = CallOp (Discrete CmdFlatTrim) :: rest
       ∧ trace s =
           [Write commandCharacteristic
              ([4; (stepsfa0b m + 1) mod 256; 0; 4; 1; 0]
                 ++ utf8 "2014-10-28" ++ [0]) true;
            Write commandCharacteristic
              [2; (stepsfa0b m + 2) mod 256; 2; 0; 0; 0] (trim_write h)]
       ∧ pcmd (drone s) = pcmd m ∧ Flying (drone s) = Flying m
       ∧ stepsfa0a (drone s) = stepsfa0a m
       ∧ stepsfa0b (drone s) = uint16_incr (uint16_incr (stepsfa0b m))).
Proof.
  assert (Hok : handshake_ok h →
    ∃ s, Start h m rest = StartOk s
       ∧ loop s = LoopSettle ∧ caller s = CallerReady
       ∧ calls s = CallOp (Discrete CmdFlatTrim) :: rest
       ∧ trace s =
           [Write commandCharacteristic
              ([4; (stepsfa0b m + 1) mod 256; 0; 4; 1; 0]
                 ++ utf8 "2014-10-28" ++ [0]) true;
            Write commandCharacteristic
              [2; (stepsfa0b m + 2) mod 256; 2; 0; 0; 0] (trim_write h)]
       ∧ pcmd (drone s) = pcmd m ∧ Flying (drone s) = Flying m
       ∧ stepsfa0a (drone s) = stepsfa0a m
       ∧ stepsfa0b (drone s) = uint16_incr (uint16_incr (stepsfa0b m))).
  { intros (Hdisc & Hset & Hen).
    rewrite (Start_after_discovery h m rest Hdisc).
    unfold Init. rewrite Hset, Hen. cbn [fst snd].
    eexists. split; [reflexivity |].
    cbn [loop caller calls trace drone app].
    unfold FlatTrim, GenerateAllStates.
    cbn [fst snd stepsfa0b set_stepsfa0b pcmd Flying stepsfa0a].
    rewrite second_seq_byte, seq_byte_uint16_incr.
    repeat split; reflexivity. }
  split; [| exact Hok].
  split.
  - intros [s Hs].
    destruct (discovery_complete_dec h) as [Hdisc | Hnot].
    + rewrite (Start_after_discovery h m rest Hdisc) in Hs.
      unfold Init in Hs.
      destruct (settings_write h) as [e |] eqn:Hset; [discriminate Hs |].
      cbn [fst snd] in Hs.
      destruct (enable_notifications h) as [e |] eqn:Hen; [discriminate Hs |].
      split; [exact Hdisc | split; [exact Hset | exact Hen]].
    + destruct (Start_before_discovery h m rest Hnot) as [Ha | [e He]];
        rewrite Hs in *; discriminate.
  - intros Hh. destruct (Hok Hh) as (s & Hs & _). exists s. exact Hs.
Qed.

Lemma Start_succeeds_iff_witness :
  ∃ s, Start (mkHandshake (inr 2%nat) (inr 2%nat) (inr 1%nat) None None false)
         NewMinidrone [CallHalt] = StartOk s
       ∧ calls s = [CallOp (Discrete CmdFlatTrim); CallHalt]
       ∧ stepsfa0b (drone s) = 2.
Proof.
  destruct (proj2 (Start_succeeds_iff
                     (mkHandshake (inr 2%nat) (inr 2%nat) (inr 1%nat) None None false)
                     NewMinidrone [CallHalt]))
    as (s & Hs & _ & _ & Hcalls & _ & _ & _ & _ & Hb).
  - repeat split; cbn; eauto.
  - exists s. split; [exact Hs |]. split; [exact Hcalls | exact Hb].
Defined.

(** X19: when [Start] returns an error, the loop has not been spawned and
    no flat trim has been sent.  If the discovery was incomplete, nothing
    at all was sent and the driver is untouched.  Otherwise the settings
    frame was sent and the command counter advanced by one: either that
    write failed, and its error was printed and returned, or it went
    through and the subscription failed. *)
Theorem Start_error_effects
    (h : handshake) (m m' : Minidrone) (rest : list call)
    (err : string) (tr : list event) :
  Start h m rest = StartError err m' tr →
  (¬ discovery_complete h ∧ m' = m ∧ tr = [])
  ∨ (discovery_complete h
     ∧ m' = (GenerateAllStates m).1
     ∧ stepsfa0b m' = uint16_incr (stepsfa0b m)
     ∧ ((settings_write h = Some err
         ∧ tr = [Write commandCharacteristic (GenerateAllStates m).2 false;
                 Println err])
        ∨ (settings_write h = None ∧ enable_notifications h = Some err
           ∧ tr = [Write commandCharacteristic (GenerateAllStates m).2 true]))).
Proof.
  intros Hs.
  destruct (discovery_complete_dec h) as [Hdisc | Hnot].
  - right. split; [exact Hdisc |].
    rewrite (Start_after_discovery h m rest Hdisc) in Hs.
    unfold Init in Hs.
    destruct (settings_write h) as [e |] eqn:Hset; cbn [fst snd] in Hs.
    + injection Hs as <- <- <-. repeat split. left. split; reflexivity.
    + destruct (enable_notifications h) as [e |] eqn:Hen; [| discriminate Hs].
      injection Hs as <- <- <-. repeat split. right. repeat split; reflexivity.
  - left. split; [exact Hnot |].
    destruct (Start_before_discovery h m rest Hnot) as [Ha | [e He]];
      rewrite Hs in *; [discriminate |].
    injection He as _ -> ->. split; reflexivity.
Qed.

Lemma Start_error_effects_witness :
  stepsfa0b (GenerateAllStates NewMinidrone).1 = uint16_incr (stepsfa0b NewMinidrone).
Proof.
  destruct (Start_error_effects
              (mkHandshake (inr 2%nat) (inr 3%nat) (inr 1%nat) None
                 (Some "refused"%string) true)
              NewMinidrone (GenerateAllStates NewMinidrone).1 []
              "refused"%string
              [Write commandCharacteristic (GenerateAllStates NewMinidrone).2 true]
              eq_refl)
    as [(Hnot & _) | (_ & _ & Hb & _)].
  - exfalso. apply Hnot. repeat split; eexists; reflexivity.
  - exact Hb.
Defined.

(** X20: [Start] aborts exactly when a discovery answers with a single
    item where two are used: one service, or two or more services and one
    command characteristic.  The emptiness checks let such an answer
    through, and the second item is then indexed. *)
Theorem Start_aborts_iff (h : handshake) (m : Minidrone) (rest : list call) :
  Start h m rest = StartAbort
  ↔ services h = inr 1%nat
    ∨ ((∃ n, services h = inr (S (S n)))
       ∧ command_characteristics h = inr 1%nat).
Proof.
  unfold Start. split.
  - destruct (services h) as [e1 | [| [| n1]]]; try discriminate; [auto |].
    destruct (command_characteristics h) as [e2 | [| [| n2]]]; try discriminate;
      [eauto |].
    destruct (notify_characteristics h) as [e3 | [| n3]]; try discriminate.
    destruct (Init h m).2; discriminate.
  - intros [-> | [[n ->] ->]]; reflexivity.
Qed.

Lemma Start_aborts_iff_witness :
  Start (mkHandshake (inr 1%nat) (inr 2%nat) (inr 1%nat) None None true)
    NewMinidrone [] = StartAbort.
Proof. apply Start_aborts_iff. left. reflexivity. Defined.

Lemma Start_Ok_inv (h : handshake) (m : Minidrone) (rest : list call) (s0 : session) :
  Start h m rest = StartOk s0 →
  s0 = {| drone := (FlatTrim (GenerateAllStates m).1).1;
          loop := LoopSettle; caller := CallerReady;
          calls := CallOp (Discrete CmdFlatTrim) :: rest;
          trace := [Write commandCharacteristic (GenerateAllStates m).2 true;
                    Write commandCharacteristic
                      (FlatTrim (GenerateAllStates m).1).2 (trim_write h)] |}.
Proof.
  intros Hs.
  destruct (discovery_complete_dec h) as [Hdisc | Hnot].
  - rewrite (Start_after_discovery h m rest Hdisc) in Hs.
    unfold Init in Hs.
    destruct (settings_write h) as [e |]; [discriminate Hs |].
    cbn [fst snd] in Hs.
    destruct (enable_notifications h) as [e |]; [discriminate Hs |].
    injection Hs as <-. reflexivity.
  - destruct (Start_before_discovery h m rest Hnot) as [Ha | [e He]];
      rewrite Hs in *; discriminate.
Qed.

Lemma reachable_pending_frames (s0 s : session) :
  reachable s0 s →
  frames_on commandCharacteristic (trace s) ++ pending_frames s
  = frames_on commandCharacteristic (trace s0) ++ pending_frames s0.
Proof.
  intros Hreach. induction Hreach as [| s c s' _ IH Hstep]; [reflexivity |].
  rewrite (step_pending_frames c s s' Hstep). exact IH.
Qed.

Lemma happen_keeps_invariants
    (a0 b0 : Z) (F : list (list Z)) (h : happening) (s s' : session) :
  happen h s = Next s' →
  one_signal s ∧ in_sequence a0 b0 s
  ∧ frames_on commandCharacteristic (trace s) ++ pending_frames s = F →
  one_signal s' ∧ in_sequence a0 b0 s'
  ∧ frames_on commandCharacteristic (trace s') ++ pending_frames s' = F.
Proof.
  intros Hh (Hone & Hseq & Hpend).
  destruct h as [c | data]; cbn [happen] in Hh.
  - split; [exact (step_one_signal c s s' Hone Hh) |].
    split; [exact (step_in_sequence a0 b0 c s s' (proj1 Hone) Hseq Hh) |].
    rewrite (step_pending_frames c s s' Hh). exact Hpend.
  - destruct (notified_inv data s s' Hh) as (Hl & Hc & Hcs & Hd & Hf).
    destruct Hone as [[Hbd Hbb] Hbudget].
    destruct Hseq as (H1 & H2 & H3 & H4).
    split; [| split].
    + split.
      * rewrite Hd. split; [exact Hbd | exact Hbb].
      * unfold signals_left, loop_gone in *. rewrite Hl, Hc, Hcs. exact Hbudget.
    + unfold in_sequence. rewrite !Hf, Hd.
      cbn [stepsfa0a stepsfa0b set_Flying]. auto.
    + unfold pending_frames in *. rewrite Hf, Hcs, <- Hpend. f_equal.
      apply encode_all_frames_ext. rewrite Hd. reflexivity.
Qed.

(** X21: a session that [Start] has opened, with notifications arriving at
    any time, followed by any caller program with at most one [Halt]: no
    step of the loop or of the caller ever aborts, and a notification
    aborts exactly when it is a [FlyingStateChanged] frame of 5 or 6 bytes;
    the goroutines never deadlock under any schedule and any write
    failures; the command frames, the two of [Start] included, carry
    consecutive sequence bytes; and when the caller has returned, the
    command transcript is the settings frame, two flat trims and then the
    program's own frames, as if encoded in one go. *)
Theorem session_after_Start
    (h : handshake) (m : Minidrone) (rest : list call) (s0 s : session) :
  buffers_ok m → (halts rest ≤ 1)%nat →
  Start h m rest = StartOk s0 → reachable_notified s0 s →
  (∀ c, step c s ≠ Abort)
  ∧ (∀ data, notified data s = Abort ↔ short_flying_frame data)
  ∧ ¬ deadlocked s
  ∧ frame_seq <$> frames_on commandCharacteristic (trace s)
    = expected_seqs (stepsfa0b m)
        (length (frames_on commandCharacteristic (trace s)))
  ∧ (finished s →
     frames_on commandCharacteristic (trace s)
     = (encode_all (CmdGenerateAllStates :: CmdFlatTrim :: CmdFlatTrim ::
                    commands_of rest) m).2).
Proof.
  intros Hok Hh Hstart Hreach.
  apply Start_Ok_inv in Hstart. subst s0.
  set (s0 := {| drone := (FlatTrim (GenerateAllStates m).1).1;
                loop := LoopSettle; caller := CallerReady;
                calls := CallOp (Discrete CmdFlatTrim) :: rest;
                trace := [Write commandCharacteristic (GenerateAllStates m).2 true;
                          Write commandCharacteristic
                            (FlatTrim (GenerateAllStates m).1).2 (trim_write h)] |})
    in *.
  set (F := (encode_all (CmdGenerateAllStates :: CmdFlatTrim :: CmdFlatTrim ::
                         commands_of rest) m).2).
  assert (Hinv : one_signal s ∧ in_sequence (stepsfa0a m) (stepsfa0b m) s
                 ∧ frames_on commandCharacteristic (trace s) ++ pending_frames s = F).
  { induction Hreach as [| s1 hp s2 _ IH Hstep].
    - split; [| split].
      + split; [exact Hok |]. unfold signals_left, loop_gone. cbn. lia.
      + unfold in_sequence. cbn.
        rewrite seq_byte_uint16_incr, second_seq_byte.
        pose proof (second_seq_byte (stepsfa0b m)) as H2.
        rewrite seq_byte_byte in H2. unfold byte in H2.
        rewrite H2, Z.add_0_r. auto.
      + reflexivity.
    - exact (happen_keeps_invariants _ _ F hp s1 s2 Hstep IH). }
  destruct Hinv as (Hone & (Hcmd & _) & Hpend).
  split; [intros c; apply step_never_aborts, Hone |].
  split.
  { intros data. unfold notified, short_flying_frame. split.
    - destruct (processFlightStatus (drone s) data) as [r |] eqn:Hp;
        [discriminate |].
      intros _. exact (None_only_short_flying_frame _ _ Hp).
    - intros [Hlen H4].
      rewrite (short_flying_frame_None (drone s) data Hlen H4). reflexivity. }
  split; [apply one_signal_not_deadlocked, Hone |].
  split; [exact Hcmd |].
  intros [_ Hdone]. unfold pending_frames in Hpend.
  rewrite Hdone in Hpend. cbn [commands_of encode_all snd] in Hpend.
  rewrite app_nil_r in Hpend. exact Hpend.
Qed.

Lemma session_after_Start_witness :
  Start good_handshake NewMinidrone takeoff_program = StartOk started_takeoff
  ∧ happen_all takeoff_happenings started_takeoff = Next finished_takeoff
  ∧ notified [2; 6; 2; 3; 1; 0] finished_takeoff = Abort
  ∧ frames_on commandCharacteristic (trace finished_takeoff)
    = [[4; 1; 0; 4; 1; 0; 50; 48; 49; 52; 45; 49; 48; 45; 50; 56; 0];
       [2; 2; 2; 0; 0; 0]; [2; 3; 2; 0; 0; 0]; [2; 4; 2; 0; 1; 0];
       [2; 5; 2; 0; 3; 0]; [2; 6; 2; 0; 3; 0]].
Proof.
  assert (Hstart : Start good_handshake NewMinidrone takeoff_program
                   = StartOk started_takeoff) by (vm_compute; reflexivity).
  assert (Hrun : happen_all takeoff_happenings started_takeoff
                 = Next finished_takeoff) by (vm_compute; reflexivity).
  assert (Hok : buffers_ok NewMinidrone) by (split; reflexivity).
  assert (Hh : (halts takeoff_program ≤ 1)%nat) by (simpl; lia).
  assert (Hfin : finished finished_takeoff) by (split; reflexivity).
  assert (Hshort : short_flying_frame [2; 6; 2; 3; 1; 0])
    by (split; [simpl; lia | reflexivity]).
  destruct (session_after_Start good_handshake NewMinidrone takeoff_program
              started_takeoff finished_takeoff Hok Hh Hstart
              (reachable_notified_happen_all _ _ _ takeoff_happenings
                 (reachable_notified_here _) Hrun))
    as (_ & Hnot & _ & _ & Htrans).
  split; [exact Hstart |]. split; [exact Hrun |].
  split; [apply (proj2 (Hnot _) Hshort) |].
  exact (Htrans Hfin).
Defined.

(** ** Who changes [Flying] *)

Lemma perform_keeps_Flying (op : operation) (m : Minidrone) :
  Flying (perform op m) = Flying m.
Proof. destruct op as [[] | []]; reflexivity. Qed.

(** X22: no command, no tick and no step of a session changes [Flying]:
    [TakeOff] does not set it and [Land] does not clear it.  Through any
    run of the loop and the caller, and through [Start], the flag stays
    what it was; it moves only when a notification is decoded. *)
Theorem Flying_moves_only_on_notification :
  (∀ op m, Flying (perform op m) = Flying m)
  ∧ (∀ m m', generatePcmd m = Some m' → Flying m' = Flying m)
  ∧ (∀ s0 s, reachable s0 s → Flying (drone s) = Flying (drone s0))
  ∧ (∀ h m rest s, Start h m rest = StartOk s → Flying (drone s) = Flying m).
Proof.
  assert (Hgen : ∀ m m', generatePcmd m = Some m' → Flying m' = Flying m).
  { intros m m' Hg. apply (generatePcmd_inv m m' Hg). }
  split; [exact perform_keeps_Flying |].
  split; [exact Hgen |].
  split.
  - intros s0 s Hreach.
    induction Hreach as [| s c s' _ IH Hstep]; [reflexivity |].
    rewrite <- IH. clear IH.
    destruct c as [ok | ok]; cbn [step] in Hstep.
    + unfold step_loop in Hstep.
      destruct (loop s); try discriminate;
        try (injection Hstep as <-; reflexivity).
      * destruct (caller s); injection Hstep as <-; reflexivity.
      * destruct (generatePcmd (drone s)) as [m1 |] eqn:Hg; [| discriminate].
        injection Hstep as <-. exact (Hgen _ _ Hg).
    + unfold step_caller in Hstep.
      destruct (caller s); [| discriminate |].
      * destruct (calls s) as [| [[c | mv] |] rest]; [discriminate | | |];
          injection Hstep as <-; cbn [drone].
        -- exact (perform_keeps_Flying (Discrete c) _).
        -- exact (perform_keeps_Flying (Motion mv) _).
        -- reflexivity.
      * injection Hstep as <-. reflexivity.
  - intros h m rest s Hs. apply Start_Ok_inv in Hs. subst s. reflexivity.
Qed.

Lemma Flying_moves_only_on_notification_witness :
  run short_schedule (started NewMinidrone short_program) = Next finished_short
  ∧ Flying (drone finished_short) = false.
Proof.
  assert (Hrun : run short_schedule (started NewMinidrone short_program)
                 = Next finished_short) by (vm_compute; reflexivity).
  split; [exact Hrun |].
  destruct Flying_moves_only_on_notification as (_ & _ & Hkeeps & _).
  exact (Hkeeps (started NewMinidrone short_program) finished_short
           (reachable_run _ _ _ short_schedule (reachable_here _) Hrun)).
Defined.
